(** * DigitalOcean Spaces upload task: key normalisation, content types,
      and the sequential upload loop

    A shallow embedding of [Tasks/DigitalOceanSpacesUpload/utils/Spaces.ts]:
    the minimal uploader (class [Spaces], method [upload]) and the typed
    uploader (class [Upload], method [init]), each with its private
    [normalizeKeyPath].

    JavaScript strings are modelled by [string]; one character stands for
    one UTF-16 code unit.  Every string primitive the task uses
    ([substring], [startsWith], [substr], [replace] with a one-character
    pattern) works unit by unit, so the embedding does not depend on how a
    unit is encoded. *)

From stdpp Require Import gmap strings list.
From Stdlib Require Import Ascii.

(** ** JavaScript string primitives used by the task *)

Module JS.

(** [s.substring(n)] for [0 <= n]: everything from index [n] on; the empty
    string when [n] is past the end. *)
Fixpoint substring (n : nat) (s : string) : string :=
  match n, s with
  | O, _ => s
  | S n', String _ s' => substring n' s'
  | S _, EmptyString => EmptyString
  end.

(** The backslash character, code 92. *)
Definition backslash : ascii := "092"%char.

(** [s.substr(1)]. *)
Definition substr1 (s : string) : string := substring 1 s.

(** [s.startsWith(p)]. *)
Definition startsWith (s p : string) : bool := String.prefix p s.

(** [s.replace(/x/g, y)] for a one-character pattern [x] and a
    one-character replacement [y]. *)
Fixpoint replaceAll (x y : ascii) (s : string) : string :=
  match s with
  | EmptyString => EmptyString
  | String a s' => String (if Ascii.eqb a x then y else a) (replaceAll x y s')
  end.

(** Truthiness of a value of type [string | undefined]: [undefined] and the
    empty string are falsy. *)
Definition truthy (o : option string) : bool :=
  match o with
  | Some (String _ _) => true
  | _ => false
  end.

(** The string held by a value that passed the truthiness test. *)
Definition the (o : option string) : string := default EmptyString o.

End JS.

(** ** Node's [path] module

    The task reads [path.sep] and calls [path.basename], [path.join] and
    [path.extname].  Which implementation is behind them depends on the
    host: the code is written against this interface.  Facts that do not
    depend on the host are stated for every path module; the POSIX
    flavour, defined below, is used where the behaviour of the functions
    matters. *)

Record PathModule : Type := {
  sep : ascii;          (* [path.sep] is a string of this one character *)
  basename : string → string;
  join : string → string → string;
  extname : string → string
}.

(** *** The POSIX flavour ([path.posix] of Node's [lib/path.js]) *)

Module Posix.

Definition slash : ascii := "/"%char.
Definition dot : ascii := "."%char.

(** The pieces of a path between its ['/'] characters; a path with [n]
    slashes has [n + 1] pieces, some of them possibly empty. *)
Fixpoint split (s : string) : list string :=
  match s with
  | EmptyString => [EmptyString]
  | String a s' =>
      if Ascii.eqb a slash then EmptyString :: split s'
      else match split s' with
           | seg :: segs => String a seg :: segs
           | [] => [String a EmptyString]
           end
  end.

(** [segs.join('/')]. *)
Fixpoint unsplit (segs : list string) : string :=
  match segs with
  | [] => EmptyString
  | [seg] => seg
  | seg :: segs' => seg +:+ String slash (unsplit segs')
  end.

(** One piece of [normalizeString]: empty pieces and ["."] are skipped,
    [".."] removes the piece before it when there is one that is not
    itself [".."] and is kept otherwise only when the path may climb above
    its root, any other piece is appended.  [res] is the result so far,
    last piece first. *)
Definition normalizeStep (allowAboveRoot : bool) (res : list string)
    (seg : string) : list string :=
  if decide (seg = EmptyString) then res
  else if decide (seg = ".") then res
  else if decide (seg = "..") then
    match res with
    | top :: res' =>
        if decide (top = "..")
        then (if allowAboveRoot then ".." :: res else res)
        else res'
    | [] => if allowAboveRoot then [".."] else []
    end
  else seg :: res.

Definition normalizeString (path : string) (allowAboveRoot : bool) : string :=
  unsplit (rev (foldl (normalizeStep allowAboveRoot) [] (split path))).

Definition endsWithSlash (s : string) : bool :=
  match last (split s) with
  | Some EmptyString => match s with EmptyString => false | _ => true end
  | _ => false
  end.

(** [path.posix.normalize]. *)
Definition normalize (path : string) : string :=
  match path with
  | EmptyString => "."
  | String c _ =>
      let isAbsolute := Ascii.eqb c slash in
      let trailingSeparator := endsWithSlash path in
      let p := normalizeString path (negb isAbsolute) in
      match p with
      | EmptyString =>
          if isAbsolute then "/" else if trailingSeparator then "./" else "."
      | _ =>
          let p' := if trailingSeparator then p +:+ "/" else p in
          if isAbsolute then String slash p' else p'
      end
  end.

(** [path.posix.join(a, b)]: the non-empty arguments are glued with ['/']
    and the result is normalised; no non-empty argument gives ["."]. *)
Definition join (a b : string) : string :=
  match a, b with
  | EmptyString, EmptyString => "."
  | EmptyString, _ => normalize b
  | _, EmptyString => normalize a
  | _, _ => normalize (a +:+ String slash b)
  end.

(** [path.posix.basename(p)]: trailing slashes are ignored and the piece
    after the last remaining slash is returned; the empty string when the
    path has no piece that is not empty. *)
Definition basename (p : string) : string :=
  default EmptyString (last (filter (λ seg, seg ≠ EmptyString) (split p))).

(** The text before the last ['.'] of [s] and the text from that dot on. *)
Fixpoint lastDot (s : string) : option (string * string) :=
  match s with
  | EmptyString => None
  | String a s' =>
      match lastDot s' with
      | Some (pre, ext) => Some (String a pre, ext)
      | None => if Ascii.eqb a dot then Some (EmptyString, s) else None
      end
  end.

(** [path.posix.extname(p)]: from the last ['.'] of the base name to its
    end; empty when the base name has no dot, starts with its only dot, or
    is [".."].  The case of the letters is kept. *)
Definition extname (p : string) : string :=
  let b := basename p in
  if decide (b = "..") then EmptyString
  else match lastDot b with
       | Some (String _ _, ext) => ext
       | _ => EmptyString
       end.

End Posix.

Arguments Posix.normalize : simpl never.
Arguments Posix.join : simpl never.
Arguments Posix.basename : simpl never.
Arguments Posix.extname : simpl never.

Definition posix : PathModule := {|
  sep := Posix.slash;
  basename := Posix.basename;
  join := Posix.join;
  extname := Posix.extname
|}.

(** ** What the task does to the outside world

    The console, the file system and the storage client are collaborators
    of the task.  A run is recorded as the sequence of calls it makes on
    them, in the order it makes them. *)

(** The error a rejected upload carries. *)
Definition Err : Type := string.

(** [S3.PutObjectRequest], with the fields the task fills in.  [Body] is a
    read stream on a file and is named by that file. *)
Record PutObjectRequest : Type := {
  Bucket : string;
  ACL : string;
  Key : string;
  Body : string;
  ContentType : option string
}.

(** [S3.ManagedUpload.SendData], which the task receives and ignores. *)
Record SendData : Type := { Location : string; ETag : string }.

(** What the client does with one upload: the progress notifications
    [(loaded, total)] it fires, then how the promise settles. *)
Record ManagedUpload : Type := {
  httpUploadProgress : list (N * N);
  promise : SendData + Err
}.

(** The storage client: the answer to the [n]-th call of
    [s3Connection.upload], counted from zero. *)
Definition S3 : Type := nat → PutObjectRequest → ManagedUpload.

Inductive Event : Type :=
  | ConsoleLog (key : string) (args : list string)
      (* console.log(tl.loc(key, ...args)) *)
  | ConsoleError (key : string) (args : list string) (err : Err)
      (* console.error(tl.loc(key, ...args), err) *)
  | CreateReadStream (file : string)
      (* fs.createReadStream(file) *)
  | Upload (req : PutObjectRequest).
      (* s3Connection.upload(req) *)

Record World : Type := {
  trace : list Event;      (* calls made so far, oldest first *)
  uploadCalls : nat        (* calls of s3Connection.upload so far *)
}.

Definition start : World := {| trace := []; uploadCalls := 0 |}.

(** How a piece of code ends: normally with a value, or by throwing. *)
Inductive Completion (A : Type) : Type :=
  | Normal (a : A)
  | Throw (e : Err).
Arguments Normal {A} a.
Arguments Throw {A} e.

Definition M (A : Type) : Type := World → Completion A * World.

Definition ret {A} (a : A) : M A := λ w, (Normal a, w).

Definition bind {A B} (m : M A) (k : A → M B) : M B :=
  λ w, match m w with
       | (Normal a, w') => k a w'
       | (Throw e, w') => (Throw e, w')
       end.

Definition throw {A} (e : Err) : M A := λ w, (Throw e, w).

(** [try { body } catch (err) { handler(err) }] *)
Definition tryCatch {A} (body : M A) (handler : Err → M A) : M A :=
  λ w, match body w with
       | (Normal a, w') => (Normal a, w')
       | (Throw e, w') => handler e w'
       end.

Definition emit (e : Event) : M unit :=
  λ w, (Normal tt, {| trace := trace w ++ [e]; uploadCalls := uploadCalls w |}).

#[global] Instance M_ret : MRet M := @ret.
#[global] Instance M_bind : MBind M := λ A B k m, bind m k.

(** [for (const x of xs) { body(x) }] *)
Fixpoint forOf {A} (xs : list A) (body : A → M unit) : M unit :=
  match xs with
  | [] => ret tt
  | x :: xs' => body x;; forOf xs' body
  end.

Definition console_log (key : string) (args : list string) : M unit :=
  emit (ConsoleLog key args).

Definition console_error (key : string) (args : list string) (err : Err)
    : M unit :=
  emit (ConsoleError key args err).

Definition fs_createReadStream (file : string) : M string :=
  emit (CreateReadStream file);; ret file.

(** [s3Connection.upload(req)]: the call is recorded and the client's
    answer to it is handed back. *)
Definition s3_upload (s3 : S3) (req : PutObjectRequest) : M ManagedUpload :=
  λ w, (Normal (s3 (uploadCalls w) req),
        {| trace := trace w ++ [Upload req];
           uploadCalls := S (uploadCalls w) |}).

(** [await request.promise()] with an [httpUploadProgress] listener
    installed: the listener runs for each notification, then the promise
    resolves or the [await] throws. *)
Definition await_promise (onProgress : N * N → M unit) (request : ManagedUpload)
    : M SendData :=
  forOf (httpUploadProgress request) onProgress;;
  match promise request with
  | inl data => ret data
  | inr err => throw err
  end.

(** ** The minimal uploader: class [Spaces] *)

Module Spaces.

Record Parameters : Type := {
  digitalRegion : string;
  digitalBucket : string;
  digitalAcl : string;
  digitalSourceFolder : string;
  digitalTargetFolder : option string;
  digitalFlattenFolders : bool
}.

Section Spaces.

Variable path : PathModule.
(** The discovery helper of [./utils]. *)
Variable findFiles : Parameters → list string.
Variable s3Connection : S3.
(** [prettyBytes(n)] and [Math.floor((loaded / total) * 100).toFixed(1)],
    which only shape the text of a progress line. *)
Variable prettyBytes : N → string.
Variable percent : N → N → string.

Definition normalizeKeyPath (file : string) (params : Parameters) : string :=
  let relativePath :=
    JS.substring (String.length (digitalSourceFolder params)) file in
  let relativePath :=
    if JS.startsWith relativePath (String (sep path) EmptyString)
    then JS.substr1 relativePath
    else relativePath in
  let targetPath :=
    if digitalFlattenFolders params then
      let flatFileName := basename path file in
      if JS.truthy (digitalTargetFolder params)
      then join path (JS.the (digitalTargetFolder params)) flatFileName
      else flatFileName
    else
      if JS.truthy (digitalTargetFolder params)
      then join path (JS.the (digitalTargetFolder params)) relativePath
      else relativePath in
  JS.replaceAll JS.backslash "/"%char targetPath.

Definition onProgress (progress : N * N) : M unit :=
  console_log "FileUploadProgress"
    [prettyBytes (fst progress); prettyBytes (snd progress);
     percent (fst progress) (snd progress)].

(** The request [upload] builds for a file. *)
Definition putObjectRequest (this : Parameters) (file body : string)
    : PutObjectRequest :=
  {| Bucket := digitalBucket this;
     ACL := digitalAcl this;
     Key := normalizeKeyPath file this;
     Body := body;
     ContentType := None |}.

(** The body of the [for] loop of [upload]. *)
Definition uploadFile (this : Parameters) (file : string) : M unit :=
  let targetPath := normalizeKeyPath file this in
  tryCatch
    (console_log "UploadingFile" [file; targetPath];;
     body ← fs_createReadStream file;
     let params := putObjectRequest this file body in
     request ← s3_upload s3Connection params;
     response ← await_promise onProgress request;
     console_log "FileUploadCompleted" [file; targetPath])
    (λ err,
     console_error "FileUploadFailed" [] err;;
     throw err).

Definition upload (this : Parameters) : M unit :=
  console_log "UploadingFiles"
    [digitalSourceFolder this;
     if JS.truthy (digitalTargetFolder this)
     then JS.the (digitalTargetFolder this) else "root";
     digitalBucket this];;
  let files := findFiles this in
  forOf files (uploadFile this).

End Spaces.

End Spaces.

(** ** The typed uploader: class [Upload] *)

Module Upload.

Record Parameters : Type := {
  digitalRegion : string;
  digitalBucket : string;
  digitalAcl : string;
  digitalSourceFolder : string;
  digitalTargetFolder : option string;
  digitalFlattenFolders : bool;
  digitalContentType : option string
}.

(** The entries [knownMimeTypes] is built from, in the order of the source. *)
Definition knownMimeTypesEntries : list (string * string) :=
  [
    (".ai", "application/postscript");
    (".aif", "audio/x-aiff");
    (".aifc", "audio/x-aiff");
    (".aiff", "audio/x-aiff");
    (".asc", "text/plain");
    (".au", "audio/basic");
    (".avi", "video/x-msvideo");
    (".bcpio", "application/x-bcpio");
    (".bin", "application/octet-stream");
    (".c", "text/plain");
    (".cc", "text/plain");
    (".ccad", "application/clariscad");
    (".cdf", "application/x-netcdf");
    (".class", "application/octet-stream");
    (".cpio", "application/x-cpio");
    (".cpp", "text/plain");
    (".cpt", "application/mac-compactpro");
    (".cs", "text/plain");
    (".csh", "application/x-csh");
    (".css", "text/css");
    (".dcr", "application/x-director");
    (".dir", "application/x-director");
    (".dms", "application/octet-stream");
    (".doc", "application/msword");
    (".docx", "application/vnd.openxmlformats-officedocument.wordprocessingml.document");
    (".dot", "application/msword");
    (".drw", "application/drafting");
    (".dvi", "application/x-dvi");
    (".dwg", "application/acad");
    (".dxf", "application/dxf");
    (".dxr", "application/x-director");
    (".eps", "application/postscript");
    (".etx", "text/x-setext");
    (".exe", "application/octet-stream");
    (".ez", "application/andrew-inset");
    (".f", "text/plain");
    (".f90", "text/plain");
    (".fli", "video/x-fli");
    (".gif", "image/gif");
    (".gtar", "application/x-gtar");
    (".gz", "application/x-gzip");
    (".h", "text/plain");
    (".hdf", "application/x-hdf");
    (".hh", "text/plain");
    (".hqx", "application/mac-binhex40");
    (".htm", "text/html");
    (".html", "text/html");
    (".ice", "x-conference/x-cooltalk");
    (".ief", "image/ief");
    (".iges", "model/iges");
    (".igs", "model/iges");
    (".ips", "application/x-ipscript");
    (".ipx", "application/x-ipix");
    (".jpe", "image/jpeg");
    (".jpeg", "image/jpeg");
    (".jpg", "image/jpeg");
    (".js", "application/x-javascript");
    (".kar", "audio/midi");
    (".latex", "application/x-latex");
    (".lha", "application/octet-stream");
    (".lsp", "application/x-lisp");
    (".lzh", "application/octet-stream");
    (".m", "text/plain");
    (".m3u8", "application/x-mpegURL");
    (".man", "application/x-troff-man");
    (".me", "application/x-troff-me");
    (".mesh", "model/mesh");
    (".mid", "audio/midi");
    (".midi", "audio/midi");
    (".mime", "www/mime");
    (".mov", "video/quicktime");
    (".movie", "video/x-sgi-movie");
    (".mp2", "audio/mpeg");
    (".mp3", "audio/mpeg");
    (".mpe", "video/mpeg");
    (".mpeg", "video/mpeg");
    (".mpg", "video/mpeg");
    (".mpga", "audio/mpeg");
    (".ms", "application/x-troff-ms");
    (".msi", "application/x-ole-storage");
    (".msh", "model/mesh");
    (".nc", "application/x-netcdf");
    (".oda", "application/oda");
    (".pbm", "image/x-portable-bitmap");
    (".pdb", "chemical/x-pdb");
    (".pdf", "application/pdf");
    (".pgm", "image/x-portable-graymap");
    (".pgn", "application/x-chess-pgn");
    (".png", "image/png");
    (".pnm", "image/x-portable-anymap");
    (".pot", "application/mspowerpoint");
    (".ppm", "image/x-portable-pixmap");
    (".pps", "application/mspowerpoint");
    (".ppt", "application/mspowerpoint");
    (".pptx", "application/vnd.openxmlformats-officedocument.presentationml.presentation");
    (".ppz", "application/mspowerpoint");
    (".pre", "application/x-freelance");
    (".prt", "application/pro_eng");
    (".ps", "application/postscript");
    (".qt", "video/quicktime");
    (".ra", "audio/x-realaudio");
    (".ram", "audio/x-pn-realaudio");
    (".ras", "image/cmu-raster");
    (".rgb", "image/x-rgb");
    (".rm", "audio/x-pn-realaudio");
    (".roff", "application/x-troff");
    (".rpm", "audio/x-pn-realaudio-plugin");
    (".rtf", "text/rtf");
    (".rtx", "text/richtext");
    (".scm", "application/x-lotusscreencam");
    (".set", "application/set");
    (".sgm", "text/sgml");
    (".sgml", "text/sgml");
    (".sh", "application/x-sh");
    (".shar", "application/x-shar");
    (".silo", "model/mesh");
    (".sit", "application/x-stuffit");
    (".skd", "application/x-koan");
    (".skm", "application/x-koan");
    (".skp", "application/x-koan");
    (".skt", "application/x-koan");
    (".smi", "application/smil");
    (".smil", "application/smil");
    (".snd", "audio/basic");
    (".sol", "application/solids");
    (".spl", "application/x-futuresplash");
    (".src", "application/x-wais-source");
    (".step", "application/STEP");
    (".stl", "application/SLA");
    (".stp", "application/STEP");
    (".sv4cpio", "application/x-sv4cpio");
    (".sv4crc", "application/x-sv4crc");
    (".svg", "image/svg+xml");
    (".swf", "application/x-shockwave-flash");
    (".t", "application/x-troff");
    (".tar", "application/x-tar");
    (".tcl", "application/x-tcl");
    (".tex", "application/x-tex");
    (".tif", "image/tiff");
    (".tiff", "image/tiff");
    (".tr", "application/x-troff");
    (".ts", "video/MP2T");
    (".tsi", "audio/TSP-audio");
    (".tsp", "application/dsptype");
    (".tsv", "text/tab-separated-values");
    (".txt", "text/plain");
    (".unv", "application/i-deas");
    (".ustar", "application/x-ustar");
    (".vcd", "application/x-cdlink");
    (".vda", "application/vda");
    (".vrml", "model/vrml");
    (".wav", "audio/x-wav");
    (".wrl", "model/vrml");
    (".xbm", "image/x-xbitmap");
    (".xlc", "application/vnd.ms-excel");
    (".xll", "application/vnd.ms-excel");
    (".xlm", "application/vnd.ms-excel");
    (".xls", "application/vnd.ms-excel");
    (".xlsx", "application/vnd.openxmlformats-officedocument.spreadsheetml.sheet");
    (".xlw", "application/vnd.ms-excel");
    (".xml", "text/xml");
    (".xpm", "image/x-xpixmap");
    (".xwd", "image/x-xwindowdump");
    (".xyz", "chemical/x-pdb");
    (".zip", "application/zip");
    (".m4v", "video/x-m4v");
    (".webm", "video/webm");
    (".ogv", "video/ogv");
    (".xap", "application/x-silverlight-app");
    (".mp4", "video/mp4");
    (".wmv", "video/x-ms-wmv")
  ].

(** [new Map(entries)]: the entries are set one after the other, a later
    entry replacing an earlier one with the same key. *)
Definition knownMimeTypes : gmap string string :=
  foldl (λ m kv, <[kv.1 := kv.2]> m) ∅ knownMimeTypesEntries.

Section Upload.

Variable path : PathModule.
Variable findFiles : Parameters → list string.
Variable s3Connection : S3.
Variable prettyBytes : N → string.
Variable percent : N → N → string.

(** The object a method runs on; [this.params] is all the methods read. *)
Record Object : Type := { params : Parameters }.

Definition normalizeKeyPath (this : Object) (file : string) : string :=
  let relativePath :=
    JS.substring (String.length (digitalSourceFolder (params this))) file in
  let relativePath :=
    if JS.startsWith relativePath (String (sep path) EmptyString)
    then JS.substr1 relativePath
    else relativePath in
  let targetPath :=
    if digitalFlattenFolders (params this) then
      let flatFileName := basename path file in
      if JS.truthy (digitalTargetFolder (params this))
      then join path (JS.the (digitalTargetFolder (params this))) flatFileName
      else flatFileName
    else
      if JS.truthy (digitalTargetFolder (params this))
      then join path (JS.the (digitalTargetFolder (params this))) relativePath
      else relativePath in
  JS.replaceAll JS.backslash "/"%char targetPath.

(** The content type [init] settles on for a file (the first statements of
    its [try] block). *)
Definition contentTypeOf (this : Object) (file : string) : string :=
  if JS.truthy (digitalContentType (params this))
  then JS.the (digitalContentType (params this))
  else
    let contentType := knownMimeTypes !! extname path file in
    if negb (JS.truthy contentType) then "application/octet-stream"
    else JS.the contentType.

Definition onProgress (progress : N * N) : M unit :=
  console_log "FileUploadProgress"
    [prettyBytes (fst progress); prettyBytes (snd progress);
     percent (fst progress) (snd progress)].

(** The request [init] builds for a file. *)
Definition putObjectRequest (this : Object) (file body : string)
    : PutObjectRequest :=
  {| Bucket := digitalBucket (params this);
     ACL := digitalAcl (params this);
     Key := normalizeKeyPath this file;
     Body := body;
     ContentType := Some (contentTypeOf this file) |}.

(** The body of the [for] loop of [init]. *)
Definition uploadFile (this : Object) (file : string) : M unit :=
  let targetPath := normalizeKeyPath this file in
  tryCatch
    (let contentType := contentTypeOf this file in
     console_log "UploadingFile" [file; targetPath; contentType];;
     body ← fs_createReadStream file;
     let params := putObjectRequest this file body in
     request ← s3_upload s3Connection params;
     response ← await_promise onProgress request;
     console_log "FileUploadCompleted" [file; targetPath])
    (λ err,
     console_error "FileUploadFailed" [] err;;
     throw err).

Definition init (this : Object) : M unit :=
  console_log "UploadingFiles"
    [digitalSourceFolder (params this);
     if JS.truthy (digitalTargetFolder (params this))
     then JS.the (digitalTargetFolder (params this)) else "root";
     digitalBucket (params this)];;
  let files := findFiles (params this) in
  if decide (files = []) then
    console_log "FileNotFound" [digitalSourceFolder (params this)];;
    ret tt
  else
    forOf files (uploadFile this);;
    console_log "TaskCompleted" [].

End Upload.

End Upload.

(** ** The algorithms as the specification words them

    These definitions follow the specification's text, not the code; the
    theorems below compare the code with them. *)

Module Spec.

(** "[filePath] with the [sourceFolder] prefix stripped": defined when
    [filePath] begins with [sourceFolder]. *)
Fixpoint stripPrefix (sourceFolder filePath : string) : option string :=
  match sourceFolder, filePath with
  | EmptyString, _ => Some filePath
  | String a s', String b f' =>
      if Ascii.eqb a b then stripPrefix s' f' else None
  | String _ _, EmptyString => None
  end.

(** "If [relative] begins with the local path separator, drop exactly one
    leading separator character." *)
Definition dropLeading (separator : ascii) (relative : string) : string :=
  match relative with
  | String a r' => if Ascii.eqb a separator then r' else relative
  | EmptyString => EmptyString
  end.

(** "joined under [targetFolder] if one is configured, else ... alone";
    an empty target folder counts as not configured. *)
Definition under (P : PathModule) (targetFolder : option string)
    (name : string) : string :=
  match targetFolder with
  | Some (String _ _ as t) => join P t name
  | _ => name
  end.

(** Steps 1 to 5 of the key normaliser, with the character that step 5
    replaces by ['/'] left open. *)
Definition normalizeKeyWith (replaced : ascii) (P : PathModule)
    (filePath sourceFolder : string) (targetFolder : option string)
    (flatten : bool) : option string :=
  relative ← stripPrefix sourceFolder filePath;
  let relative := dropLeading (sep P) relative in
  let destination :=
    if flatten then under P targetFolder (basename P filePath)
    else under P targetFolder relative in
  Some (JS.replaceAll replaced "/"%char destination).

(** Step 5 as worded: "replace every local path-separator character in
    the final result with [/]". *)
Definition normalizeKey (P : PathModule) :=
  normalizeKeyWith (sep P) P.

(** "lowercased": the letters [A] to [Z] become [a] to [z]. *)
Definition toLowerChar (c : ascii) : ascii :=
  let n := nat_of_ascii c in
  if (65 <=? n) && (n <=? 90) then ascii_of_nat (n + 32) else c.

Fixpoint toLowerCase (s : string) : string :=
  match s with
  | EmptyString => EmptyString
  | String a s' => String (toLowerChar a) (toLowerCase s')
  end.

(** The content-type resolver of the specification: a non-empty override
    wins; otherwise the lowercased extension is looked up in the table,
    with ["application/octet-stream"] when it is absent. *)
Definition resolveContentType (P : PathModule) (filePath : string)
    (explicitOverride : option string) : string :=
  match explicitOverride with
  | Some (String _ _ as ct) => ct
  | _ => default "application/octet-stream"
           (Upload.knownMimeTypes !! toLowerCase (extname P filePath))
  end.

End Spec.

(** ** Predicates used to state the properties *)

(** [c] occurs in [s]. *)
Fixpoint occurs (c : ascii) (s : string) : bool :=
  match s with
  | EmptyString => false
  | String a s' => Ascii.eqb a c || occurs c s'
  end.

(** [s] begins with the character [c]. *)
Definition beginsWith (c : ascii) (s : string) : bool :=
  match s with
  | String a _ => Ascii.eqb a c
  | EmptyString => false
  end.

(** A piece of a relative path that names a file or a directory: not
    empty, not ["."] and not [".."]. *)
Definition ordinary (seg : string) : Prop :=
  seg ≠ EmptyString ∧ seg ≠ "." ∧ seg ≠ "..".

(** A piece as [normalizeString] keeps it: not empty, free of slashes and
    free of the character [c]. *)
Definition kept (c : ascii) (seg : string) : Prop :=
  seg ≠ EmptyString ∧ occurs Posix.slash seg = false ∧ occurs c seg = false.


(** The typed uploader with the minimal configuration [params] and the
    content-type override [contentType]. *)
Definition typedOf (params : Spaces.Parameters) (contentType : option string)
    : Upload.Object :=
  {| Upload.params :=
       {| Upload.digitalRegion := Spaces.digitalRegion params;
          Upload.digitalBucket := Spaces.digitalBucket params;
          Upload.digitalAcl := Spaces.digitalAcl params;
          Upload.digitalSourceFolder := Spaces.digitalSourceFolder params;
          Upload.digitalTargetFolder := Spaces.digitalTargetFolder params;
          Upload.digitalFlattenFolders := Spaces.digitalFlattenFolders params;
          Upload.digitalContentType := contentType |} |}.




(** The requests a run handed to the storage client, in order. *)
Definition uploadsOf (tr : list Event) : list PutObjectRequest :=
  omap (λ e, match e with Upload req => Some req | _ => None end) tr.

(** The lines of a run logged under the message [key]. *)
Definition hasKey (key : string) (e : Event) : bool :=
  match e with
  | ConsoleLog k _ => bool_decide (k = key)
  | _ => false
  end.

Definition logged (key : string) (tr : list Event) : list Event :=
  filter (λ e, hasKey key e = true) tr.

(** The per-file completion events of a run. *)
Definition completionsOf (tr : list Event) : list Event :=
  logged "FileUploadCompleted" tr.

(** The failure events of a run. *)
Definition isFailure (e : Event) : bool :=
  match e with
  | ConsoleError _ _ _ => true
  | _ => false
  end.

Definition failuresOf (tr : list Event) : list Event :=
  filter (λ e, isFailure e = true) tr.

(** The failure events of a run that name [file] among the arguments of
    their message. *)
Definition namesFile (file : string) (e : Event) : bool :=
  match e with
  | ConsoleError _ args _ => bool_decide (file ∈ args)
  | _ => false
  end.

Definition failuresNaming (file : string) (tr : list Event) : list Event :=
  filter (λ e, namesFile file e = true) tr.

(** The line a progress notification is logged as. *)
Definition progressEvent (prettyBytes : N → string) (percent : N → N → string)
    (progress : N * N) : Event :=
  ConsoleLog "FileUploadProgress"
    [prettyBytes (fst progress); prettyBytes (snd progress);
     percent (fst progress) (snd progress)].

(** How one pass of the loop ends, given the client's answer. *)
Definition outcome (answer : ManagedUpload) : Completion unit :=
  match promise answer with
  | inl _ => Normal tt
  | inr err => Throw err
  end.

(** What one pass of the loop does to the outside world, given the
    client's answer: the "starting" line, the read stream, the request,
    the progress lines, then the completion line or the failure line. *)
Definition attemptEvents (prettyBytes : N → string)
    (percent : N → N → string) (starting completed : Event) (file : string)
    (req : PutObjectRequest) (answer : ManagedUpload) : list Event :=
  [starting; CreateReadStream file; Upload req]
  ++ map (progressEvent prettyBytes percent) (httpUploadProgress answer)
  ++ [match promise answer with
      | inl _ => completed
      | inr err => ConsoleError "FileUploadFailed" [] err
      end].

(** The events of consecutive passes over [files], the first of them
    making the [k]-th call of the client. *)
Fixpoint passes (events : nat → string → list Event) (k : nat)
    (files : list string) : list Event :=
  match files with
  | [] => []
  | file :: files' => events k file ++ passes events (S k) files'
  end.

(** The events of the pass of [Spaces.upload] over [file] that makes the
    [k]-th call of the client. *)
Definition minimalEvents (path : PathModule) (s3 : S3)
    (prettyBytes : N → string) (percent : N → N → string)
    (this : Spaces.Parameters) (k : nat) (file : string) : list Event :=
  let key := Spaces.normalizeKeyPath path file this in
  let req := Spaces.putObjectRequest path this file file in
  attemptEvents prettyBytes percent
    (ConsoleLog "UploadingFile" [file; key])
    (ConsoleLog "FileUploadCompleted" [file; key])
    file req (s3 k req).

(** The events of the pass of [Upload.init] over [file] that makes the
    [k]-th call of the client. *)
Definition typedEvents (path : PathModule) (s3 : S3)
    (prettyBytes : N → string) (percent : N → N → string)
    (this : Upload.Object) (k : nat) (file : string) : list Event :=
  let key := Upload.normalizeKeyPath path this file in
  let req := Upload.putObjectRequest path this file file in
  attemptEvents prettyBytes percent
    (ConsoleLog "UploadingFile" [file; key; Upload.contentTypeOf path this file])
    (ConsoleLog "FileUploadCompleted" [file; key])
    file req (s3 k req).

(** What the loop over [files] has done when it stops, a run that starts
    with no call made: it handed the client the requests of the first [n]
    files, in order, and logged [tr]; it ended normally after the last
    file, or by throwing the error of the [n]-th upload. *)
Definition loopOutcome (s3 : S3) (req : string → PutObjectRequest)
    (files : list string) (n : nat) (tr : list Event)
    (res : Completion unit) : Prop :=
  n ≤ length files
  ∧ uploadsOf tr = map req (take n files)
  ∧ (∀ key, key ≠ "UploadingFile" → key ≠ "FileUploadProgress" →
            key ≠ "FileUploadCompleted" → logged key tr = [])
  ∧ match res with
    | Normal _ =>
        n = length files ∧ failuresOf tr = []
        ∧ length (completionsOf tr) = n
    | Throw err =>
        failuresOf tr = [ConsoleError "FileUploadFailed" [] err]
        ∧ S (length (completionsOf tr)) = n
        ∧ last tr = Some (ConsoleError "FileUploadFailed" [] err)
        ∧ ∃ f, files !! (n - 1) = Some f
               ∧ promise (s3 (n - 1) (req f)) = inr err
    end.

(** ** Sample configurations *)

(** A client that rejects its second upload and resolves the others. *)
Definition rejectSecond : S3 :=
  λ n _, {| httpUploadProgress := [(512, 1024)%N];
            promise := if decide (n = 1) then inr "AccessDenied"
                       else inl {| Location := "spaces"; ETag := "etag" |} |}.

(** A client that resolves every upload after two notifications. *)
Definition resolveAll : S3 :=
  λ _ _, {| httpUploadProgress := [(512, 1024)%N; (1024, 1024)%N];
            promise := inl {| Location := "spaces"; ETag := "etag" |} |}.

(** Stand-ins for the two formatters of a progress line. *)
Definition plainBytes (n : N) : string := "bytes".
Definition plainPercent (loaded total : N) : string := "percent".

Definition threeFiles : list string :=
  ["/build/out/a.txt"; "/build/out/b.txt"; "/build/out/c.txt"].


Definition minimalParams (target : option string) (flatten : bool)
    : Spaces.Parameters :=
  {| Spaces.digitalRegion := "nyc3";
     Spaces.digitalBucket := "artifacts";
     Spaces.digitalAcl := "private";
     Spaces.digitalSourceFolder := "/build/out";
     Spaces.digitalTargetFolder := target;
     Spaces.digitalFlattenFolders := flatten |}.

Definition typedUploader (target : option string) (flatten : bool)
    (contentType : option string) : Upload.Object :=
  {| Upload.params :=
       {| Upload.digitalRegion := "nyc3";
          Upload.digitalBucket := "artifacts";
          Upload.digitalAcl := "private";
          Upload.digitalSourceFolder := "/build/out";
          Upload.digitalTargetFolder := target;
          Upload.digitalFlattenFolders := flatten;
          Upload.digitalContentType := contentType |} |}.

(** A file of the source folder whose name holds a backslash, which POSIX
    file systems allow: the file [a\b.txt] of [/build/out]. *)
Definition backslashName : string :=
  "/build/out/a" +:+ String JS.backslash "b.txt".

(** ** Facts about strings *)

Section StringFacts.

Lemma app_cons a s t : String a s +:+ t = String a (s +:+ t).
Proof. reflexivity. Qed.

Lemma app_empty_l t : EmptyString +:+ t = t.
Proof. reflexivity. Qed.

Lemma app_empty_r s : s +:+ EmptyString = s.
Proof. induction s as [|a s IH]; [done|]. by rewrite app_cons, IH. Qed.



Lemma substring_length_app s rest :
  JS.substring (String.length s) (s +:+ rest) = rest.
Proof. induction s as [|a s IH]; [done|]. by rewrite app_cons. Qed.

Lemma stripPrefix_app s rest : Spec.stripPrefix s (s +:+ rest) = Some rest.
Proof.
  induction s as [|a s IH]; [done|].
  rewrite app_cons. simpl. by rewrite Ascii.eqb_refl.
Qed.

Lemma startsWith_char c s :
  JS.startsWith s (String c EmptyString) = beginsWith c s.
Proof.
  destruct s as [|a s]; [done|]. unfold JS.startsWith. simpl.
  destruct (Ascii.ascii_dec c a) as [->|Hne].
  - rewrite Ascii.eqb_refl. by destruct s.
  - symmetry. apply Ascii.eqb_neq. congruence.
Qed.

Lemma dropLeading_code c rest :
  (if JS.startsWith rest (String c EmptyString) then JS.substr1 rest else rest)
  = Spec.dropLeading c rest.
Proof.
  rewrite startsWith_char. destruct rest as [|a r]; [done|]. reflexivity.
Qed.

Lemma under_code P (t : option string) name :
  (if JS.truthy t then join P (JS.the t) name else name) = Spec.under P t name.
Proof. by destruct t as [[|a t]|]. Qed.

Lemma occurs_cons c a s :
  occurs c (String a s) = Ascii.eqb a c || occurs c s.
Proof. reflexivity. Qed.

Lemma occurs_app c s t : occurs c (s +:+ t) = occurs c s || occurs c t.
Proof.
  induction s as [|a s IH]; [done|].
  rewrite app_cons. simpl. rewrite IH. by rewrite orb_assoc.
Qed.


Lemma replaceAll_absent x y s : occurs x s = false → JS.replaceAll x y s = s.
Proof.
  induction s as [|a s IH]; [done|]. simpl.
  intros [Ha Hs]%orb_false_iff. by rewrite Ha, IH.
Qed.

Lemma replaceAll_same x s : JS.replaceAll x x s = s.
Proof.
  induction s as [|a s IH]; [done|]. simpl. rewrite IH.
  destruct (Ascii.eqb_spec a x); congruence.
Qed.


Lemma beginsWith_replaceAll x y c s :
  beginsWith x s = false →
  beginsWith c (JS.replaceAll x y s) = beginsWith c s.
Proof. destruct s as [|a s]; [done|]. simpl. by intros ->. Qed.



End StringFacts.

(** ** Facts about the POSIX path functions *)

Section PosixFacts.

Import Posix.

(** Rewrites [occurs] through literals and appends, using what is known
    about single characters. *)
Ltac occurs_chars :=
  repeat first
    [ rewrite occurs_cons | rewrite occurs_app
    | match goal with H : Ascii.eqb _ _ = false |- _ => rewrite H end
    | rewrite orb_false_l | rewrite orb_false_r ];
  try reflexivity.

Lemma split_nonempty s : split s ≠ [].
Proof.
  destruct s as [|a s]; [done|]. simpl.
  destruct (Ascii.eqb a slash); [done|]. by destruct (split s).
Qed.

(** No piece of a path contains a slash, and a character of a piece is a
    character of the path. *)
Lemma split_pieces c s :
  Forall (λ seg, occurs slash seg = false ∧
                 (occurs c s = false → occurs c seg = false)) (split s).
Proof.
  induction s as [|a s IH]; simpl.
  - by repeat constructor.
  - destruct (Ascii.eqb a slash) eqn:Ha.
    + constructor; [done|].
      eapply Forall_impl; [exact IH|]. simpl.
      intros seg [H1 H2]. split; [done|].
      intros [_ ?]%orb_false_iff. auto.
    + destruct (split s) as [|seg segs] eqn:Hs.
      { by destruct (split_nonempty s). }
      inversion IH as [|? ? [H1 H2] Hrest]; subst.
      constructor.
      * simpl. rewrite Ha, H1. split; [done|].
        intros [-> ?]%orb_false_iff. simpl. auto.
      * eapply Forall_impl; [exact Hrest|]. simpl.
        intros seg' [H1' H2']. split; [done|].
        intros [_ ?]%orb_false_iff. auto.
Qed.

Lemma kept_dotdot c : c ≠ dot → kept c "..".
Proof.
  intros Hc. assert (Ascii.eqb dot c = false) as Hd.
  { apply Ascii.eqb_neq. congruence. }
  split; [done|]. split; [done|].
  change (Ascii.eqb dot c || (Ascii.eqb dot c || false) = false).
  by rewrite Hd.
Qed.

Lemma normalizeStep_kept c allow res seg :
  c ≠ dot →
  occurs slash seg = false → occurs c seg = false →
  Forall (kept c) res → Forall (kept c) (normalizeStep allow res seg).
Proof.
  intros Hc Hs Hb Hres. unfold normalizeStep.
  destruct (decide (seg = EmptyString)); [done|].
  destruct (decide (seg = ".")); [done|].
  destruct (decide (seg = "..")) as [->|].
  - destruct res as [|top res'].
    + destruct allow; [|done]. constructor; [by apply kept_dotdot|done].
    + destruct (decide (top = "..")).
      * destruct allow; [|done]. constructor; [by apply kept_dotdot|done].
      * by inversion Hres.
  - by constructor.
Qed.

Lemma normalizeString_kept c allow segs res :
  c ≠ dot →
  Forall (λ seg, occurs slash seg = false ∧ occurs c seg = false) segs →
  Forall (kept c) res →
  Forall (kept c) (foldl (normalizeStep allow) res segs).
Proof.
  intros Hc Hsegs. revert res.
  induction Hsegs as [|seg segs [H1 H2] _ IH]; intros res Hres; [done|].
  simpl. apply IH. by apply normalizeStep_kept.
Qed.

Lemma unsplit_cons seg segs :
  segs ≠ [] → unsplit (seg :: segs) = seg +:+ String slash (unsplit segs).
Proof. by destruct segs. Qed.

Lemma unsplit_kept c segs :
  c ≠ slash → Forall (kept c) segs → occurs c (unsplit segs) = false.
Proof.
  intros Hc. induction 1 as [|seg segs (Hne & Hs & Hb) Hsegs IH]; [done|].
  destruct segs as [|seg' segs']; [done|].
  rewrite unsplit_cons by done. rewrite occurs_app, occurs_cons.
  rewrite Hb, IH, orb_false_l, orb_false_r.
  apply Ascii.eqb_neq. congruence.
Qed.


Lemma normalizeString_stack c path allow :
  c ≠ dot → c = slash ∨ occurs c path = false →
  Forall (kept c) (rev (foldl (normalizeStep allow) [] (split path))).
Proof.
  intros Hc Hocc. apply Forall_rev, normalizeString_kept; [done| |done].
  eapply Forall_impl; [apply (split_pieces c path)|]. simpl.
  intros seg [H1 H2]. split; [done|].
  destruct Hocc as [->|Hocc]; auto.
Qed.

(** [normalize] brings in no character other than ['.'] and ['/']. *)
Lemma normalize_occurs c path :
  c ≠ dot → c ≠ slash → occurs c path = false →
  occurs c (normalize path) = false.
Proof.
  intros Hd Hs Hocc.
  assert (Ascii.eqb dot c = false) as Hdc by (apply Ascii.eqb_neq; congruence).
  assert (Ascii.eqb slash c = false) as Hsc by (apply Ascii.eqb_neq; congruence).
  pose proof Hdc as Hdc'. pose proof Hsc as Hsc'. unfold dot, slash in Hdc', Hsc'.
  destruct path as [|a path'] eqn:Hpath.
  { unfold normalize. by occurs_chars. }
  rewrite <- Hpath in *. unfold normalize. rewrite Hpath at 1.
  pose proof (normalizeString_stack c path (negb (Ascii.eqb a slash)) Hd
                (or_intror Hocc)) as Hst.
  apply (unsplit_kept c) in Hst; [|done].
  fold (normalizeString path (negb (Ascii.eqb a slash))) in Hst.
  destruct (normalizeString path (negb (Ascii.eqb a slash))) as [|b p] eqn:Hp.
  - destruct (Ascii.eqb a slash), (endsWithSlash path); by occurs_chars.
  - destruct (Ascii.eqb a slash), (endsWithSlash path);
      repeat (occurs_chars; rewrite ?Hst); done.
Qed.


Lemma join_occurs c a b :
  c ≠ dot → c ≠ slash → occurs c a = false → occurs c b = false →
  occurs c (join a b) = false.
Proof.
  intros Hd Hs Ha Hb. unfold join.
  assert (Ascii.eqb dot c = false) as Hdc by (apply Ascii.eqb_neq; congruence).
  assert (Ascii.eqb slash c = false) as Hsc by (apply Ascii.eqb_neq; congruence).
  pose proof Hdc as Hdc'. unfold dot in Hdc'.
  destruct a as [|x a'] eqn:Hea, b as [|y b'] eqn:Heb.
  - by occurs_chars.
  - by apply normalize_occurs.
  - by apply normalize_occurs.
  - apply normalize_occurs; [done..|].
    rewrite occurs_app, Ha, occurs_cons, Hb. by occurs_chars.
Qed.


(** The base name is a piece of the path, or empty. *)
Lemma basename_piece c p :
  occurs slash (basename p) = false ∧
  (occurs c p = false → occurs c (basename p) = false).
Proof.
  unfold basename.
  destruct (last (filter (λ seg, seg ≠ EmptyString) (split p))) as [b|] eqn:Hl;
    [|done].
  apply last_Some_elem_of, list_elem_of_filter in Hl as [_ Hb].
  pose proof (split_pieces c p) as Hall.
  rewrite Forall_forall in Hall. exact (Hall b Hb).
Qed.

End PosixFacts.

(** ** What [normalizeKeyPath] computes *)

Section KeyFacts.

Variable P : PathModule.

(** The key of the minimal uploader, for a file written as the source
    folder followed by [rest]. *)
Lemma Spaces_key (params : Spaces.Parameters) (rest : string) :
  Spaces.normalizeKeyPath P (Spaces.digitalSourceFolder params +:+ rest) params
  = JS.replaceAll JS.backslash "/"%char
      (if Spaces.digitalFlattenFolders params
       then Spec.under P (Spaces.digitalTargetFolder params)
              (basename P (Spaces.digitalSourceFolder params +:+ rest))
       else Spec.under P (Spaces.digitalTargetFolder params)
              (Spec.dropLeading (sep P) rest)).
Proof.
  unfold Spaces.normalizeKeyPath.
  rewrite substring_length_app, dropLeading_code, !under_code.
  reflexivity.
Qed.

(** The two uploaders compute a key from the same four inputs in the same
    way. *)
Lemma normalizeKeyPath_same (file : string) (params : Spaces.Parameters)
    (this : Upload.Object) :
  Upload.digitalSourceFolder (Upload.params this)
    = Spaces.digitalSourceFolder params →
  Upload.digitalTargetFolder (Upload.params this)
    = Spaces.digitalTargetFolder params →
  Upload.digitalFlattenFolders (Upload.params this)
    = Spaces.digitalFlattenFolders params →
  Upload.normalizeKeyPath P this file = Spaces.normalizeKeyPath P file params.
Proof.
  intros Hs Ht Hf. unfold Upload.normalizeKeyPath, Spaces.normalizeKeyPath.
  by rewrite Hs, Ht, Hf.
Qed.



End KeyFacts.

(** ** Joining a clean relative path under a folder *)

Section PosixJoin.

Import Posix.

Lemma split_app a b : split (a +:+ String slash b) = split a ++ split b.
Proof.
  induction a as [|x a IH].
  - by rewrite app_empty_l.
  - rewrite app_cons. simpl. rewrite IH.
    destruct (Ascii.eqb x slash); [done|].
    destruct (split a) as [|seg segs] eqn:Hs; [|done].
    by destruct (split_nonempty a).
Qed.

Lemma unsplit_split s : unsplit (split s) = s.
Proof.
  induction s as [|x s IH]; [done|]. simpl.
  destruct (Ascii.eqb_spec x slash) as [->|Hx].
  - rewrite unsplit_cons by apply split_nonempty. by rewrite IH.
  - destruct (split s) as [|seg segs] eqn:Hs.
    { by destruct (split_nonempty s). }
    destruct segs as [|seg' segs'].
    + simpl in *. by rewrite IH.
    + rewrite unsplit_cons by done. rewrite unsplit_cons in IH by done.
      by rewrite app_cons, IH.
Qed.


(** Ordinary pieces are appended one after the other. *)
Lemma foldl_ordinary allow segs res :
  Forall ordinary segs →
  foldl (normalizeStep allow) res segs = rev segs ++ res.
Proof.
  intros Hsegs. revert res.
  induction Hsegs as [|seg segs (H1 & H2 & H3) _ IH]; intros res; [done|].
  simpl. rewrite IH. unfold normalizeStep.
  rewrite !decide_False by done. by rewrite <- app_assoc.
Qed.

Lemma ordinary_nonempty r : Forall ordinary (split r) → r ≠ EmptyString.
Proof. intros H ->. inversion H as [|? ? (Hne & _)]; subst. done. Qed.



End PosixJoin.

(** ** Key normalisation *)

Lemma occurs_suffix c s rest :
  occurs c (s +:+ rest) = false → occurs c rest = false.
Proof. rewrite occurs_app. by intros [_ ?]%orb_false_iff. Qed.

Lemma occurs_dropLeading c x rest :
  occurs c rest = false → occurs c (Spec.dropLeading x rest) = false.
Proof.
  destruct rest as [|a r]; [done|]. simpl.
  destruct (Ascii.eqb a x); [|done]. by intros [_ ?]%orb_false_iff.
Qed.

Lemma backslash_not_dot : JS.backslash ≠ Posix.dot.
Proof. done. Qed.

Lemma backslash_not_slash : JS.backslash ≠ Posix.slash.
Proof. done. Qed.

(** On a POSIX host, a file and a target folder free of backslashes give a
    destination free of backslashes. *)
Lemma posix_destination_no_backslash (file relative : string)
    (target : option string) :
  occurs JS.backslash file = false →
  occurs JS.backslash relative = false →
  occurs JS.backslash (JS.the target) = false →
  occurs JS.backslash (Spec.under posix target (basename posix file)) = false ∧
  occurs JS.backslash (Spec.under posix target relative) = false.
Proof.
  intros Hf Hr Ht.
  pose proof (proj2 (basename_piece JS.backslash file) Hf) as Hb.
  destruct target as [[|a t]|]; try done.
  split; apply join_occurs;
    auto using backslash_not_dot, backslash_not_slash.
Qed.

(** C1 (amended): for a file path that begins with the source folder,
    [normalizeKeyPath] of either uploader strips the folder by its length,
    drops one leading separator, joins the base name (flatten) or the
    relative path (no flatten) under the target folder when one is set,
    and finally replaces every backslash by ['/'].  On a POSIX host this
    is the specification's algorithm, whose last step replaces the local
    separator, whenever the file path and the target folder hold no
    backslash.  The end-to-end example gives the keys the specification
    lists. *)
Theorem normalizeKeyPath_algorithm :
  (∀ (P : PathModule) (params : Spaces.Parameters) (rest : string)
      (contentType : option string),
     let file := Spaces.digitalSourceFolder params +:+ rest in
     Some (Spaces.normalizeKeyPath P file params)
     = Spec.normalizeKeyWith JS.backslash P file
         (Spaces.digitalSourceFolder params)
         (Spaces.digitalTargetFolder params)
         (Spaces.digitalFlattenFolders params)
     ∧ Some (Upload.normalizeKeyPath P (typedOf params contentType) file)
       = Spec.normalizeKeyWith JS.backslash P file
           (Spaces.digitalSourceFolder params)
           (Spaces.digitalTargetFolder params)
           (Spaces.digitalFlattenFolders params))
  ∧ (∀ (params : Spaces.Parameters) (rest : string),
       let file := Spaces.digitalSourceFolder params +:+ rest in
       occurs JS.backslash file = false →
       occurs JS.backslash (JS.the (Spaces.digitalTargetFolder params)) = false →
       Some (Spaces.normalizeKeyPath posix file params)
       = Spec.normalizeKey posix file
           (Spaces.digitalSourceFolder params)
           (Spaces.digitalTargetFolder params)
           (Spaces.digitalFlattenFolders params))
  ∧ map (λ file, Spaces.normalizeKeyPath posix file
                   (minimalParams (Some "release") false))
        ["/build/out/a.txt"; "/build/out/img/b.png"]
    = ["release/a.txt"; "release/img/b.png"]
  ∧ map (λ file, Spaces.normalizeKeyPath posix file
                   (minimalParams (Some "release") true))
        ["/build/out/a.txt"; "/build/out/img/b.png"]
    = ["release/a.txt"; "release/b.png"]
  ∧ map (Upload.normalizeKeyPath posix
           (typedUploader (Some "release") false None))
        ["/build/out/a.txt"; "/build/out/img/b.png"]
    = ["release/a.txt"; "release/img/b.png"]
  ∧ map (Upload.normalizeKeyPath posix
           (typedUploader (Some "release") true None))
        ["/build/out/a.txt"; "/build/out/img/b.png"]
    = ["release/a.txt"; "release/b.png"].
Proof.
  assert (∀ (P : PathModule) (params : Spaces.Parameters) (rest : string),
     Some (Spaces.normalizeKeyPath P
             (Spaces.digitalSourceFolder params +:+ rest) params)
     = Spec.normalizeKeyWith JS.backslash P
         (Spaces.digitalSourceFolder params +:+ rest)
         (Spaces.digitalSourceFolder params)
         (Spaces.digitalTargetFolder params)
         (Spaces.digitalFlattenFolders params)) as Hcode.
  { intros P params rest. unfold Spec.normalizeKeyWith.
    rewrite stripPrefix_app. simpl. by rewrite Spaces_key. }
  split; [|split; [|by vm_compute]].
  - intros P params rest contentType file. split; [apply Hcode|].
    rewrite (normalizeKeyPath_same P file params); [apply Hcode|done..].
  - intros params rest file Hf Ht. subst file. rewrite Hcode.
    unfold Spec.normalizeKey, Spec.normalizeKeyWith.
    rewrite stripPrefix_app. simpl. f_equal.
    change Posix.slash with "/"%char. rewrite replaceAll_same.
    apply replaceAll_absent.
    destruct (posix_destination_no_backslash
                (Spaces.digitalSourceFolder params +:+ rest)
                (Spec.dropLeading "/" rest)
                (Spaces.digitalTargetFolder params)) as [Hb Hr]; [done| |done|].
    { apply occurs_dropLeading. by eapply occurs_suffix. }
    by destruct (Spaces.digitalFlattenFolders params).
Qed.

(** The backslash-free instance of C1: [/build/out/img/b.png] under
    [release]. *)
Lemma normalizeKeyPath_algorithm_witness :
  Some (Spaces.normalizeKeyPath posix "/build/out/img/b.png"
          (minimalParams (Some "release") false))
  = Spec.normalizeKey posix "/build/out/img/b.png" "/build/out"
      (Some "release") false.
Proof.
  exact (proj1 (proj2 normalizeKeyPath_algorithm)
           (minimalParams (Some "release") false) "/img/b.png"
           eq_refl eq_refl).
Defined.

(** C1 as stated fails on a POSIX host: for the file [a\b.txt] of
    [/build/out] the code turns the backslash of the name into ['/'],
    while the specification's last step only touches the local separator
    ['/'] and leaves the name as it is. *)
Lemma normalizeKeyPath_not_spec_on_posix :
  Spaces.normalizeKeyPath posix backslashName (minimalParams None false)
    = "a/b.txt"
  ∧ Spec.normalizeKey posix backslashName "/build/out" None false
    = Some ("a" +:+ String JS.backslash "b.txt")
  ∧ Some (Spaces.normalizeKeyPath posix backslashName
            (minimalParams None false))
    ≠ Spec.normalizeKey posix backslashName "/build/out" None false.
Proof. by vm_compute. Qed.

(** *** The first character of a key *)




Section PosixHeads.

Import Posix.







End PosixHeads.




(** C5: with [flatten] set, two files with the same base name get the same
    key, whatever directories they are in. *)
Theorem flatten_same_basename_same_key :
  ∀ (P : PathModule) (params : Spaces.Parameters) (this : Upload.Object)
    (file1 file2 : string),
    basename P file1 = basename P file2 →
    (Spaces.digitalFlattenFolders params = true →
     Spaces.normalizeKeyPath P file1 params
     = Spaces.normalizeKeyPath P file2 params)
    ∧ (Upload.digitalFlattenFolders (Upload.params this) = true →
       Upload.normalizeKeyPath P this file1
       = Upload.normalizeKeyPath P this file2).
Proof.
  intros P params this file1 file2 Hb.
  unfold Spaces.normalizeKeyPath, Upload.normalizeKeyPath.
  split; intros ->; by rewrite Hb.
Qed.

(** An instance of C5: [a.txt] at two depths of [/build/out]. *)
Lemma flatten_same_basename_same_key_witness :
  Spaces.normalizeKeyPath posix "/build/out/a.txt"
    (minimalParams (Some "release") true)
  = Spaces.normalizeKeyPath posix "/build/out/x/y/a.txt"
      (minimalParams (Some "release") true).
Proof.
  exact (proj1 (flatten_same_basename_same_key posix
                  (minimalParams (Some "release") true)
                  (typedUploader (Some "release") true None)
                  "/build/out/a.txt" "/build/out/x/y/a.txt" eq_refl)
           eq_refl).
Defined.

(** C10: the two uploaders' [normalizeKeyPath] agree: for the same file
    path, source folder, target folder and flatten flag they return the
    same key. *)
Theorem normalizeKeyPath_variants_agree :
  ∀ (P : PathModule) (file : string) (params : Spaces.Parameters)
    (this : Upload.Object),
    Upload.digitalSourceFolder (Upload.params this)
      = Spaces.digitalSourceFolder params →
    Upload.digitalTargetFolder (Upload.params this)
      = Spaces.digitalTargetFolder params →
    Upload.digitalFlattenFolders (Upload.params this)
      = Spaces.digitalFlattenFolders params →
    Spaces.normalizeKeyPath P file params
    = Upload.normalizeKeyPath P this file.
Proof.
  intros P file params this Hs Ht Hf. symmetry.
  by apply normalizeKeyPath_same.
Qed.

(** An instance of C10: the sample configurations of the two uploaders. *)
Lemma normalizeKeyPath_variants_agree_witness :
  Spaces.normalizeKeyPath posix "/build/out/img/b.png"
    (minimalParams (Some "release") true)
  = Upload.normalizeKeyPath posix
      (typedUploader (Some "release") true (Some "text/plain"))
      "/build/out/img/b.png".
Proof.
  exact (normalizeKeyPath_variants_agree posix "/build/out/img/b.png"
           (minimalParams (Some "release") true)
           (typedUploader (Some "release") true (Some "text/plain"))
           eq_refl eq_refl eq_refl).
Defined.





(** ** Content types *)

(** The table has an entry for each of the 171 pairs of the source, and no
    entry maps to the empty string. *)
Lemma knownMimeTypes_size : size Upload.knownMimeTypes = 171.
Proof. by vm_compute. Qed.

Lemma knownMimeTypes_values :
  map_Forall (λ _ mime, mime ≠ EmptyString) Upload.knownMimeTypes.
Proof. by apply (bool_decide_unpack _); vm_compute. Qed.

(** Without an override, [init] looks up what [path.extname] returns and
    falls back to ["application/octet-stream"]. *)
Lemma contentTypeOf_lookup (P : PathModule) (this : Upload.Object)
    (file : string) :
  JS.truthy (Upload.digitalContentType (Upload.params this)) = false →
  Upload.contentTypeOf P this file
  = default "application/octet-stream"
      (Upload.knownMimeTypes !! extname P file).
Proof.
  intros Hov. unfold Upload.contentTypeOf. rewrite Hov.
  destruct (Upload.knownMimeTypes !! extname P file) as [mime|] eqn:Hm;
    [|done].
  apply knownMimeTypes_values in Hm. by destruct mime.
Qed.

(** C2 (amended): with no override configured, the content type is found
    by looking up the file's extension as [path.extname] returns it, the
    leading dot included and the case of its letters kept; an extension
    that is already in lower case resolves as the specification says.
    The lookup is case-sensitive: [a.pdf] resolves to [application/pdf]
    and [a.PDF], whose extension [.PDF] is not in the table, to
    [application/octet-stream]. *)
Theorem contentType_by_extension_as_written :
  (∀ (P : PathModule) (this : Upload.Object) (file : string),
     JS.truthy (Upload.digitalContentType (Upload.params this)) = false →
     Upload.contentTypeOf P this file
     = default "application/octet-stream"
         (Upload.knownMimeTypes !! extname P file)
     ∧ (Spec.toLowerCase (extname P file) = extname P file →
        Upload.contentTypeOf P this file
        = Spec.resolveContentType P file
            (Upload.digitalContentType (Upload.params this))))
  ∧ extname posix "a.PDF" = ".PDF"
  ∧ Upload.contentTypeOf posix (typedUploader None false None) "a.PDF"
    = "application/octet-stream"
  ∧ Upload.contentTypeOf posix (typedUploader None false None) "a.pdf"
    = "application/pdf".
Proof.
  split; [|by vm_compute].
  intros P this file Hov. split; [by apply contentTypeOf_lookup|].
  intros Hlow. rewrite contentTypeOf_lookup by done.
  unfold Spec.resolveContentType. rewrite Hlow.
  by destruct (Upload.digitalContentType (Upload.params this)) as [[|a ct]|].
Qed.

(** An instance of C2: [/build/out/img/b.png], whose extension is in lower
    case. *)
Lemma contentType_by_extension_as_written_witness :
  Upload.contentTypeOf posix (typedUploader None false None)
    "/build/out/img/b.png"
  = Spec.resolveContentType posix "/build/out/img/b.png" None.
Proof.
  exact (proj2 (proj1 contentType_by_extension_as_written posix
                  (typedUploader None false None) "/build/out/img/b.png"
                  eq_refl)
           eq_refl).
Defined.

(** C2 as stated fails: the extension is not lowercased, so [a.PDF] does
    not resolve as the specification says and does not resolve to the
    type of [a.pdf]. *)
Lemma contentType_is_case_sensitive :
  Upload.contentTypeOf posix (typedUploader None false None) "a.PDF"
    ≠ Spec.resolveContentType posix "a.PDF" None
  ∧ Upload.contentTypeOf posix (typedUploader None false None) "a.PDF"
    ≠ Upload.contentTypeOf posix (typedUploader None false None) "a.pdf".
Proof. by vm_compute. Qed.

(** C6: a non-empty override is returned as it is; without one, an
    extension of the table gives its entry and any other extension gives
    ["application/octet-stream"].  The three examples of the
    specification hold. *)
Theorem contentType_resolution :
  (∀ (P : PathModule) (this : Upload.Object) (file : string),
     (∀ ct, Upload.digitalContentType (Upload.params this) = Some ct →
            ct ≠ EmptyString →
            Upload.contentTypeOf P this file = ct)
     ∧ (JS.truthy (Upload.digitalContentType (Upload.params this)) = false →
        ∀ mime, Upload.knownMimeTypes !! extname P file = Some mime →
                Upload.contentTypeOf P this file = mime)
     ∧ (JS.truthy (Upload.digitalContentType (Upload.params this)) = false →
        Upload.knownMimeTypes !! extname P file = None →
        Upload.contentTypeOf P this file = "application/octet-stream"))
  ∧ Upload.contentTypeOf posix (typedUploader None false None) "a.pdf"
    = "application/pdf"
  ∧ Upload.contentTypeOf posix (typedUploader None false None) "a.unknownext"
    = "application/octet-stream"
  ∧ Upload.contentTypeOf posix
      (typedUploader None false (Some "text/plain")) "a.pdf"
    = "text/plain".
Proof.
  split; [|by vm_compute].
  intros P this file. split; [|split].
  - intros ct Hct Hne. unfold Upload.contentTypeOf. rewrite Hct.
    by destruct ct.
  - intros Hov mime Hm. by rewrite contentTypeOf_lookup, Hm.
  - intros Hov Hm. by rewrite contentTypeOf_lookup, Hm.
Qed.

(** An instance of C6: the override [image/x-icon] on a [.png] file. *)
Lemma contentType_resolution_witness :
  Upload.contentTypeOf posix
    (typedUploader None false (Some "image/x-icon")) "/build/out/img/b.png"
  = "image/x-icon".
Proof.
  apply (proj1 (proj1 contentType_resolution posix
                  (typedUploader None false (Some "image/x-icon"))
                  "/build/out/img/b.png")).
  - reflexivity.
  - discriminate.
Defined.

(** ** Running the upload loop *)

Section Running.

Lemma run_bind {A B} (m : M A) (k : A → M B) (w : World) :
  (m ≫= k) w
  = match m w with
    | (Normal a, w') => k a w'
    | (Throw e, w') => (Throw e, w')
    end.
Proof. reflexivity. Qed.

Lemma forOf_emit {A} (f : A → Event) (xs : list A) (w : World) :
  forOf xs (λ x, emit (f x)) w
  = (Normal tt, {| trace := trace w ++ map f xs;
                   uploadCalls := uploadCalls w |}).
Proof.
  revert w. induction xs as [|x xs IH]; intros w.
  - simpl. unfold ret. rewrite app_nil_r. by destruct w.
  - simpl. rewrite run_bind. unfold emit at 1. rewrite IH. simpl.
    by rewrite <- app_assoc.
Qed.

(** The common shape of the two loop bodies. *)
Lemma attempt_run (s3 : S3) (prettyBytes : N → string)
    (percent : N → N → string) (onProgress : N * N → M unit)
    (starting completed : Event) (file : string)
    (req : string → PutObjectRequest) (w : World) :
  onProgress = (λ p, emit (progressEvent prettyBytes percent p)) →
  tryCatch
    (emit starting;;
     body ← fs_createReadStream file;
     request ← s3_upload s3 (req body);
     response ← await_promise onProgress request;
     emit completed)
    (λ err, console_error "FileUploadFailed" [] err;; throw err) w
  = (outcome (s3 (uploadCalls w) (req file)),
     {| trace := trace w ++ attemptEvents prettyBytes percent starting
                              completed file (req file)
                              (s3 (uploadCalls w) (req file));
        uploadCalls := S (uploadCalls w) |}).
Proof.
  intros ->. unfold tryCatch, attemptEvents, outcome.
  rewrite !run_bind. unfold emit at 1. unfold fs_createReadStream.
  rewrite !run_bind. unfold emit at 1. unfold ret at 1.
  rewrite run_bind. unfold s3_upload at 1. simpl uploadCalls. simpl trace.
  rewrite run_bind. unfold await_promise. rewrite run_bind, forOf_emit.
  simpl uploadCalls. simpl trace.
  destruct (promise (s3 (uploadCalls w) (req file))) as [data|err].
  - unfold ret, emit. simpl. by rewrite <- !app_assoc.
  - unfold throw, console_error. rewrite run_bind. unfold emit. simpl.
    by rewrite <- !app_assoc.
Qed.

Variable body : string → M unit.
Variable result : nat → string → Completion unit.
Variable events : nat → string → list Event.
Hypothesis body_run : ∀ file w,
  body file w
  = (result (uploadCalls w) file,
     {| trace := trace w ++ events (uploadCalls w) file;
        uploadCalls := S (uploadCalls w) |}).

(** While every upload resolves the loop goes on, file after file. *)
Lemma forOf_all_resolve (files : list string) (w : World) :
  (∀ i file, files !! i = Some file →
             result (uploadCalls w + i) file = Normal tt) →
  forOf files body w
  = (Normal tt,
     {| trace := trace w ++ passes events (uploadCalls w) files;
        uploadCalls := uploadCalls w + length files |}).
Proof.
  revert w. induction files as [|file files IH]; intros w Hres.
  - simpl. unfold ret. rewrite app_nil_r, Nat.add_0_r. by destruct w.
  - simpl. rewrite run_bind, body_run.
    pose proof (Hres 0 file eq_refl) as H0. rewrite Nat.add_0_r in H0.
    rewrite H0, IH.
    + simpl. rewrite <- app_assoc. do 2 f_equal. lia.
    + intros i file' Hi. simpl. rewrite <- (Hres (S i) file' Hi).
      f_equal. lia.
Qed.

(** The first upload that rejects ends the loop: the files after it are
    not visited. *)
Lemma forOf_first_reject (pre post : list string) (file : string) (err : Err)
    (w : World) :
  (∀ i file', pre !! i = Some file' →
              result (uploadCalls w + i) file' = Normal tt) →
  result (uploadCalls w + length pre) file = Throw err →
  forOf (pre ++ file :: post) body w
  = (Throw err,
     {| trace := trace w ++ passes events (uploadCalls w) pre
                   ++ events (uploadCalls w + length pre) file;
        uploadCalls := S (uploadCalls w + length pre) |}).
Proof.
  revert w. induction pre as [|file' pre IH]; intros w Hres Hrej.
  - simpl. rewrite run_bind, body_run. rewrite Nat.add_0_r in *.
    by rewrite Hrej.
  - simpl. rewrite run_bind, body_run.
    pose proof (Hres 0 file' eq_refl) as H0. rewrite Nat.add_0_r in H0.
    rewrite H0, IH.
    + simpl. rewrite <- !app_assoc.
      replace (uploadCalls w + S (length pre))
        with (S (uploadCalls w + length pre)) by lia.
      done.
    + intros i file'' Hi. simpl. rewrite <- (Hres (S i) file'' Hi).
      f_equal. lia.
    + simpl. rewrite <- Hrej. f_equal. simpl. lia.
Qed.

Lemma passes_filter (P : Event → Prop) `{∀ e, Decision (P e)}
    (g : string → list Event) (files : list string) (k : nat) :
  (∀ i file, files !! i = Some file → filter P (events (k + i) file) = g file) →
  filter P (passes events k files) = concat (map g files).
Proof.
  revert k. induction files as [|file files IH]; intros k Hg; [done|].
  simpl. rewrite filter_app. f_equal.
  - rewrite <- (Hg 0 file eq_refl). by rewrite Nat.add_0_r.
  - apply IH. intros i file' Hi. rewrite <- (Hg (S i) file' Hi).
    do 2 f_equal. lia.
Qed.

Lemma passes_uploads (req : string → PutObjectRequest)
    (files : list string) (k : nat) :
  (∀ k' file, uploadsOf (events k' file) = [req file]) →
  uploadsOf (passes events k files) = map req files.
Proof.
  intros Hreq. revert k. induction files as [|file files IH]; intros k; [done|].
  simpl. unfold uploadsOf in *. by rewrite omap_app, Hreq, IH.
Qed.

End Running.

(** What the events of one pass contain. *)
Section Attempt.

Variable prettyBytes : N → string.
Variable percent : N → N → string.
Variables (startKey : string) (startArgs doneArgs : list string).
Variables (file : string) (req : PutObjectRequest) (answer : ManagedUpload).

Let events : list Event :=
  attemptEvents prettyBytes percent (ConsoleLog startKey startArgs)
    (ConsoleLog "FileUploadCompleted" doneArgs) file req answer.

Lemma progress_no_upload (ps : list (N * N)) :
  uploadsOf (map (progressEvent prettyBytes percent) ps) = [].
Proof. by induction ps. Qed.

Lemma progress_filter (P : Event → Prop) `{∀ e, Decision (P e)}
    (ps : list (N * N)) :
  (∀ args, ¬ P (ConsoleLog "FileUploadProgress" args)) →
  filter P (map (progressEvent prettyBytes percent) ps) = [].
Proof.
  intros HP. induction ps as [|p ps IH]; [done|].
  simpl. rewrite filter_cons_False; [done|]. apply HP.
Qed.

Lemma attempt_uploads : uploadsOf events = [req].
Proof.
  unfold events, attemptEvents, uploadsOf.
  rewrite !omap_app. fold (uploadsOf (map (progressEvent prettyBytes percent)
                                        (httpUploadProgress answer))).
  rewrite progress_no_upload. simpl. by destruct (promise answer).
Qed.

Lemma attempt_failures :
  failuresOf events
  = match promise answer with
    | inl _ => []
    | inr err => [ConsoleError "FileUploadFailed" [] err]
    end.
Proof.
  unfold events, attemptEvents, failuresOf.
  rewrite !filter_app, progress_filter by done.
  by destruct (promise answer).
Qed.

Lemma attempt_completions :
  startKey ≠ "FileUploadCompleted" →
  completionsOf events
  = match promise answer with
    | inl _ => [ConsoleLog "FileUploadCompleted" doneArgs]
    | inr err => []
    end.
Proof.
  intros Hkey. unfold events, attemptEvents, completionsOf, logged.
  rewrite !filter_app, progress_filter by done.
  rewrite filter_cons_False.
  - by destruct (promise answer).
  - simpl. by rewrite bool_decide_eq_false_2.
Qed.

Lemma attempt_not_logged (key : string) :
  startKey ≠ key → key ≠ "FileUploadProgress" → key ≠ "FileUploadCompleted" →
  logged key events = [].
Proof.
  intros Hstart Hprog Hdone. unfold events, attemptEvents, logged.
  rewrite !filter_app, progress_filter.
  - rewrite filter_cons_False.
    + destruct (promise answer); [|done].
      simpl. rewrite filter_cons_False; [done|].
      simpl. by rewrite bool_decide_eq_false_2.
    + simpl. by rewrite bool_decide_eq_false_2.
  - intros args. simpl. by rewrite bool_decide_eq_false_2.
Qed.

Lemma attempt_last :
  last events
  = Some match promise answer with
         | inl _ => ConsoleLog "FileUploadCompleted" doneArgs
         | inr err => ConsoleError "FileUploadFailed" [] err
         end.
Proof.
  unfold events, attemptEvents. rewrite app_assoc. apply last_snoc.
Qed.

End Attempt.

Lemma concat_map_nil {A B} (l : list A) :
  concat (map (λ _, @nil B) l) = [].
Proof. by induction l. Qed.

Lemma length_concat_map_singleton {A B} (g : A → B) (l : list A) :
  length (concat (map (λ x, [g x]) l)) = length l.
Proof. induction l; simpl; auto. Qed.

(** The loop of either uploader, up to the first upload that rejects. *)
Section FailFast.

Variable s3 : S3.
Variable prettyBytes : N → string.
Variable percent : N → N → string.
Variables startArgs doneArgs : string → list string.
Variable req : string → PutObjectRequest.
Variable body : string → M unit.

Let events (k : nat) (file : string) : list Event :=
  attemptEvents prettyBytes percent
    (ConsoleLog "UploadingFile" (startArgs file))
    (ConsoleLog "FileUploadCompleted" (doneArgs file))
    file (req file) (s3 k (req file)).

Hypothesis body_run : ∀ file w,
  body file w
  = (outcome (s3 (uploadCalls w) (req file)),
     {| trace := trace w ++ events (uploadCalls w) file;
        uploadCalls := S (uploadCalls w) |}).

Lemma loop_first_reject (pre post : list string) (file : string) (err : Err)
    (w0 : World) :
  uploadCalls w0 = 0 →
  (∀ i f, pre !! i = Some f → outcome (s3 i (req f)) = Normal tt) →
  outcome (s3 (length pre) (req file)) = Throw err →
  ∃ tr,
    forOf (pre ++ file :: post) body w0
    = (Throw err, {| trace := trace w0 ++ tr;
                     uploadCalls := S (length pre) |})
    ∧ last tr = Some (ConsoleError "FileUploadFailed" [] err)
    ∧ failuresOf tr = [ConsoleError "FileUploadFailed" [] err]
    ∧ length (completionsOf tr) = length pre
    ∧ uploadsOf tr = map req (pre ++ [file])
    ∧ logged "TaskCompleted" tr = [].
Proof.
  intros Hk Hres Hrej.
  exists (passes events 0 pre ++ events (length pre) file).
  assert (promise (s3 (length pre) (req file)) = inr err) as Hp.
  { unfold outcome in Hrej.
    destruct (promise (s3 (length pre) (req file))); congruence. }
  assert (∀ i f, pre !! i = Some f → ∃ data, promise (s3 i (req f)) = inl data)
    as Hres'.
  { intros i f Hi. specialize (Hres i f Hi). unfold outcome in Hres.
    destruct (promise (s3 i (req f))); [eauto|congruence]. }
  split; [|split; [|split; [|split; [|split]]]].
  - rewrite (forOf_first_reject body (λ k f, outcome (s3 k (req f))) events
               body_run pre post file err); rewrite Hk; simpl; auto.
  - rewrite last_app. unfold events. by rewrite attempt_last, Hp.
  - unfold failuresOf. rewrite filter_app.
    rewrite (passes_filter events _ (λ _, [])).
    + fold (failuresOf (events (length pre) file)). unfold events.
      by rewrite attempt_failures, Hp, concat_map_nil.
    + intros i f Hi. destruct (Hres' i f Hi) as [data Hd].
      change (0 + i) with i.
      fold (failuresOf (events i f)). unfold events.
      by rewrite attempt_failures, Hd.
  - unfold completionsOf, logged. rewrite filter_app, length_app.
    rewrite (passes_filter events _
               (λ f, [ConsoleLog "FileUploadCompleted" (doneArgs f)])).
    + fold (logged "FileUploadCompleted" (events (length pre) file)).
      fold (completionsOf (events (length pre) file)). unfold events.
      rewrite attempt_completions, Hp by done.
      rewrite length_concat_map_singleton. simpl. lia.
    + intros i f Hi. destruct (Hres' i f Hi) as [data Hd].
      change (0 + i) with i.
      fold (logged "FileUploadCompleted" (events i f)).
      fold (completionsOf (events i f)). unfold events.
      by rewrite attempt_completions, Hd.
  - unfold uploadsOf. rewrite omap_app, map_app.
    fold (uploadsOf (passes events 0 pre)).
    fold (uploadsOf (events (length pre) file)).
    rewrite (passes_uploads events req).
    + unfold events. by rewrite attempt_uploads.
    + intros k' f. unfold events. apply attempt_uploads.
  - unfold logged. rewrite filter_app.
    rewrite (passes_filter events _ (λ _, [])).
    + fold (logged "TaskCompleted" (events (length pre) file)). unfold events.
      by rewrite attempt_not_logged, concat_map_nil.
    + intros i f Hi. fold (logged "TaskCompleted" (events (0 + i) f)).
      unfold events. by rewrite attempt_not_logged.
Qed.

End FailFast.

(** ** The two uploaders *)

Lemma Spaces_uploadFile_run path s3 prettyBytes percent this file w :
  Spaces.uploadFile path s3 prettyBytes percent this file w
  = (outcome (s3 (uploadCalls w) (Spaces.putObjectRequest path this file file)),
     {| trace := trace w ++ minimalEvents path s3 prettyBytes percent this
                              (uploadCalls w) file;
        uploadCalls := S (uploadCalls w) |}).
Proof.
  unfold Spaces.uploadFile, minimalEvents, console_log.
  by apply (attempt_run s3 prettyBytes percent
              (Spaces.onProgress prettyBytes percent) _ _ file
              (Spaces.putObjectRequest path this file) w).
Qed.

Lemma Upload_uploadFile_run path s3 prettyBytes percent this file w :
  Upload.uploadFile path s3 prettyBytes percent this file w
  = (outcome (s3 (uploadCalls w) (Upload.putObjectRequest path this file file)),
     {| trace := trace w ++ typedEvents path s3 prettyBytes percent this
                              (uploadCalls w) file;
        uploadCalls := S (uploadCalls w) |}).
Proof.
  unfold Upload.uploadFile, typedEvents, console_log.
  by apply (attempt_run s3 prettyBytes percent
              (Upload.onProgress prettyBytes percent) _ _ file
              (Upload.putObjectRequest path this file) w).
Qed.

(** The opening line of a run changes none of the counts below. *)
Lemma after_opening (args : list string) (tr : list Event) (e : Event) :
  last tr = Some e →
  let tr' := ConsoleLog "UploadingFiles" args :: tr in
  last tr' = Some e
  ∧ failuresOf tr' = failuresOf tr
  ∧ completionsOf tr' = completionsOf tr
  ∧ uploadsOf tr' = uploadsOf tr
  ∧ logged "TaskCompleted" tr' = logged "TaskCompleted" tr.
Proof.
  intros Hlast tr'. split; [|done].
  subst tr'. by destruct tr.
Qed.

(** C7 (amended): when the upload of some file rejects, all uploads before
    it having resolved, either uploader ends by throwing the client's
    error; the last thing it does is to emit the one failure event of the
    run, which carries the message [FileUploadFailed] without arguments
    and the client's error, not the file path; one completion event was
    emitted for each file before the failing one; the client received the
    requests of the files up to the failing one and no other; and no
    overall completion was logged. *)
Theorem upload_fails_fast :
  (∀ (path : PathModule) (findFiles : Upload.Parameters → list string)
      (s3 : S3) (prettyBytes : N → string) (percent : N → N → string)
      (this : Upload.Object) (pre post : list string) (file : string)
      (err : Err),
     let req := λ f, Upload.putObjectRequest path this f f in
     findFiles (Upload.params this) = pre ++ file :: post →
     (∀ i f, pre !! i = Some f → outcome (s3 i (req f)) = Normal tt) →
     outcome (s3 (length pre) (req file)) = Throw err →
     ∃ w, Upload.init path findFiles s3 prettyBytes percent this start
          = (Throw err, w)
        ∧ last (trace w) = Some (ConsoleError "FileUploadFailed" [] err)
        ∧ failuresOf (trace w) = [ConsoleError "FileUploadFailed" [] err]
        ∧ length (completionsOf (trace w)) = length pre
        ∧ uploadsOf (trace w) = map req (pre ++ [file])
        ∧ logged "TaskCompleted" (trace w) = [])
  ∧ (∀ (path : PathModule) (findFiles : Spaces.Parameters → list string)
        (s3 : S3) (prettyBytes : N → string) (percent : N → N → string)
        (this : Spaces.Parameters) (pre post : list string) (file : string)
        (err : Err),
       let req := λ f, Spaces.putObjectRequest path this f f in
       findFiles this = pre ++ file :: post →
       (∀ i f, pre !! i = Some f → outcome (s3 i (req f)) = Normal tt) →
       outcome (s3 (length pre) (req file)) = Throw err →
       ∃ w, Spaces.upload path findFiles s3 prettyBytes percent this start
            = (Throw err, w)
          ∧ last (trace w) = Some (ConsoleError "FileUploadFailed" [] err)
          ∧ failuresOf (trace w) = [ConsoleError "FileUploadFailed" [] err]
          ∧ length (completionsOf (trace w)) = length pre
          ∧ uploadsOf (trace w) = map req (pre ++ [file])).
Proof.
  split.
  - intros path findFiles s3 prettyBytes percent this pre post file err req
      Hfiles Hres Hrej.
    destruct (loop_first_reject s3 prettyBytes percent
                (λ f, [f; Upload.normalizeKeyPath path this f;
                       Upload.contentTypeOf path this f])
                (λ f, [f; Upload.normalizeKeyPath path this f])
                req
                (Upload.uploadFile path s3 prettyBytes percent this)
                (Upload_uploadFile_run path s3 prettyBytes percent this)
                pre post file err
                {| trace := [ConsoleLog "UploadingFiles"
                               [Upload.digitalSourceFolder (Upload.params this);
                                if JS.truthy (Upload.digitalTargetFolder
                                                (Upload.params this))
                                then JS.the (Upload.digitalTargetFolder
                                               (Upload.params this))
                                else "root";
                                Upload.digitalBucket (Upload.params this)]];
                   uploadCalls := 0 |} eq_refl Hres Hrej)
      as (tr & Hrun & Hlast & Hfail & Hdone & Hup & Htask).
    eexists. split.
    + unfold Upload.init, console_log. rewrite run_bind. unfold emit at 1.
      simpl trace. simpl uploadCalls. rewrite Hfiles.
      rewrite decide_False by (by destruct pre).
      rewrite run_bind, app_nil_l, Hrun. reflexivity.
    + simpl trace.
      destruct (after_opening
                  [Upload.digitalSourceFolder (Upload.params this);
                   if JS.truthy (Upload.digitalTargetFolder (Upload.params this))
                   then JS.the (Upload.digitalTargetFolder (Upload.params this))
                   else "root";
                   Upload.digitalBucket (Upload.params this)] tr _ Hlast)
        as (H1 & H2 & H3 & H4 & H5).
      rewrite H1, H2, H3, H4, H5. done.
  - intros path findFiles s3 prettyBytes percent this pre post file err req
      Hfiles Hres Hrej.
    destruct (loop_first_reject s3 prettyBytes percent
                (λ f, [f; Spaces.normalizeKeyPath path f this])
                (λ f, [f; Spaces.normalizeKeyPath path f this])
                req
                (Spaces.uploadFile path s3 prettyBytes percent this)
                (Spaces_uploadFile_run path s3 prettyBytes percent this)
                pre post file err
                {| trace := [ConsoleLog "UploadingFiles"
                               [Spaces.digitalSourceFolder this;
                                if JS.truthy (Spaces.digitalTargetFolder this)
                                then JS.the (Spaces.digitalTargetFolder this)
                                else "root";
                                Spaces.digitalBucket this]];
                   uploadCalls := 0 |} eq_refl Hres Hrej)
      as (tr & Hrun & Hlast & Hfail & Hdone & Hup & Htask).
    eexists. split.
    + unfold Spaces.upload, console_log. rewrite run_bind. unfold emit at 1.
      simpl trace. simpl uploadCalls. rewrite Hfiles, app_nil_l, Hrun.
      reflexivity.
    + simpl trace.
      destruct (after_opening
                  [Spaces.digitalSourceFolder this;
                   if JS.truthy (Spaces.digitalTargetFolder this)
                   then JS.the (Spaces.digitalTargetFolder this)
                   else "root";
                   Spaces.digitalBucket this] tr _ Hlast)
        as (H1 & H2 & H3 & H4 & H5).
      rewrite H1, H2, H3, H4. done.
Qed.

(** The fail-fast scenario: three files, the second upload rejects.  One
    completion event and one failure event are emitted, and the client
    receives the requests of the first two files only. *)
Lemma upload_fails_fast_witness :
  ∃ w, Upload.init posix (λ _, threeFiles) rejectSecond plainBytes plainPercent
         (typedUploader None false None) start
       = (Throw "AccessDenied", w)
     ∧ last (trace w) = Some (ConsoleError "FileUploadFailed" [] "AccessDenied")
     ∧ failuresOf (trace w) = [ConsoleError "FileUploadFailed" [] "AccessDenied"]
     ∧ length (completionsOf (trace w)) = 1
     ∧ uploadsOf (trace w)
       = map (λ f, Upload.putObjectRequest posix
                     (typedUploader None false None) f f)
           ["/build/out/a.txt"; "/build/out/b.txt"]
     ∧ logged "TaskCompleted" (trace w) = [].
Proof.
  apply (proj1 upload_fails_fast posix (λ _, threeFiles) rejectSecond
           plainBytes plainPercent (typedUploader None false None)
           ["/build/out/a.txt"] ["/build/out/c.txt"] "/build/out/b.txt"
           "AccessDenied").
  - reflexivity.
  - intros [|i] f Hi; [reflexivity|discriminate].
  - reflexivity.
Defined.

(** C7 as stated fails: in the fail-fast scenario the only failure event
    is [FileUploadFailed] with no argument and the client's error; no
    failure event of either uploader names [/build/out/b.txt], the file
    whose upload was rejected. *)
Lemma failure_event_omits_file_path :
  let typed :=
    snd (Upload.init posix (λ _, threeFiles) rejectSecond plainBytes
           plainPercent (typedUploader None false None) start) in
  let minimal :=
    snd (Spaces.upload posix (λ _, threeFiles) rejectSecond plainBytes
           plainPercent (minimalParams None false) start) in
  failuresOf (trace typed) = [ConsoleError "FileUploadFailed" [] "AccessDenied"]
  ∧ failuresNaming "/build/out/b.txt" (trace typed) = []
  ∧ failuresOf (trace minimal)
    = [ConsoleError "FileUploadFailed" [] "AccessDenied"]
  ∧ failuresNaming "/build/out/b.txt" (trace minimal) = [].
Proof. by vm_compute. Qed.

(** C8, on the code: when discovery yields no file, both uploaders return
    normally and hand no request to the client.  The typed uploader logs
    [FileNotFound] after its opening line; the minimal uploader logs its
    opening line and nothing else, so it emits no "no files found"
    event. *)
Theorem empty_list_runs :
  (∀ (path : PathModule) (findFiles : Upload.Parameters → list string)
      (s3 : S3) (prettyBytes : N → string) (percent : N → N → string)
      (this : Upload.Object),
     findFiles (Upload.params this) = [] →
     ∃ w, Upload.init path findFiles s3 prettyBytes percent this start
          = (Normal tt, w)
        ∧ uploadsOf (trace w) = []
        ∧ logged "FileNotFound" (trace w)
          = [ConsoleLog "FileNotFound"
               [Upload.digitalSourceFolder (Upload.params this)]])
  ∧ (∀ (path : PathModule) (findFiles : Spaces.Parameters → list string)
        (s3 : S3) (prettyBytes : N → string) (percent : N → N → string)
        (this : Spaces.Parameters),
       findFiles this = [] →
       ∃ w, Spaces.upload path findFiles s3 prettyBytes percent this start
            = (Normal tt, w)
          ∧ uploadsOf (trace w) = []
          ∧ logged "FileNotFound" (trace w) = []
          ∧ length (trace w) = 1).
Proof.
  split.
  - intros path findFiles s3 prettyBytes percent this Hfiles.
    eexists. split; [|split].
    + unfold Upload.init. rewrite Hfiles. reflexivity.
    + reflexivity.
    + reflexivity.
  - intros path findFiles s3 prettyBytes percent this Hfiles.
    eexists. split; [|split; [|split]].
    + unfold Spaces.upload. rewrite Hfiles. reflexivity.
    + reflexivity.
    + reflexivity.
    + reflexivity.
Qed.

(** The empty-list scenario for the minimal uploader: no "no files found"
    event. *)
Lemma empty_list_runs_witness :
  ∃ w, Spaces.upload posix (λ _, []) rejectSecond plainBytes plainPercent
         (minimalParams None false) start
       = (Normal tt, w)
     ∧ uploadsOf (trace w) = []
     ∧ logged "FileNotFound" (trace w) = []
     ∧ length (trace w) = 1.
Proof.
  exact (proj2 empty_list_runs posix (λ _, []) rejectSecond plainBytes
           plainPercent (minimalParams None false) eq_refl).
Defined.

(** * Further properties of the code *)

(** ** Keys of clean paths *)

Section PosixClean.

Import Posix.

Lemma split_slash_free s : occurs slash s = false → split s = [s].
Proof.
  induction s as [|a s IH]; [done|]. simpl.
  intros [Ha Hs]%orb_false_iff. rewrite Ha, (IH Hs). done.
Qed.

Lemma clean_not_absolute x :
  Forall ordinary (split x) → beginsWith slash x = false.
Proof.
  destruct x as [|a x]; [done|]. simpl.
  destruct (Ascii.eqb a slash); [|done].
  intros H. inversion H as [|? ? (Hne & _)]; subst. done.
Qed.

Lemma endsWithSlash_clean x :
  Forall ordinary (split x) → endsWithSlash x = false.
Proof.
  intros Hx. unfold endsWithSlash.
  destruct (last (split x)) as [seg|] eqn:Hl; [|done].
  apply last_Some_elem_of in Hl. rewrite Forall_forall in Hx.
  destruct (Hx seg Hl) as (Hne & _). by destruct seg.
Qed.

(** A path made of ordinary pieces is already normal. *)
Lemma normalize_clean x : Forall ordinary (split x) → normalize x = x.
Proof.
  intros Hx. pose proof (clean_not_absolute x Hx) as Hrel.
  pose proof (ordinary_nonempty x Hx) as Hne.
  destruct x as [|a x'] eqn:Hex; [done|]. rewrite <- Hex in *.
  assert (Ascii.eqb a slash = false) as Ha by (by rewrite Hex in Hrel).
  assert (normalizeString x true = x) as Hp.
  { unfold normalizeString. rewrite foldl_ordinary by done.
    by rewrite app_nil_r, rev_involutive, unsplit_split. }
  unfold normalize. rewrite Hex at 1. rewrite Ha. simpl negb.
  rewrite Hp, endsWithSlash_clean by done. by rewrite Hex.
Qed.

Lemma join_clean t r :
  Forall ordinary (split t) → Forall ordinary (split r) →
  join t r = t +:+ String slash r.
Proof.
  intros Ht Hr.
  pose proof (ordinary_nonempty t Ht). pose proof (ordinary_nonempty r Hr).
  assert (join t r = normalize (t +:+ String slash r)) as ->.
  { by destruct t, r. }
  apply normalize_clean. rewrite split_app. by apply Forall_app.
Qed.

End PosixClean.

(** X1: without [flatten], only the length of the source folder matters:
    the file path is cut at that length whether or not it begins with
    the folder, so a path that begins with any other string of the same
    length gets the key of the path under the folder.  With [flatten],
    the key does not depend on the source folder at all. *)
Theorem key_ignores_source_folder_text :
  ∀ (P : PathModule) (params : Spaces.Parameters) (this : Upload.Object),
    (∀ (other rest : string),
       String.length other = String.length (Spaces.digitalSourceFolder params) →
       Spaces.digitalFlattenFolders params = false →
       Spaces.normalizeKeyPath P (other +:+ rest) params
       = Spaces.normalizeKeyPath P
           (Spaces.digitalSourceFolder params +:+ rest) params)
    ∧ (∀ (other rest : string),
         String.length other
           = String.length (Upload.digitalSourceFolder (Upload.params this)) →
         Upload.digitalFlattenFolders (Upload.params this) = false →
         Upload.normalizeKeyPath P this (other +:+ rest)
         = Upload.normalizeKeyPath P this
             (Upload.digitalSourceFolder (Upload.params this) +:+ rest))
    ∧ (∀ (params' : Spaces.Parameters) (file : string),
         Spaces.digitalFlattenFolders params = true →
         Spaces.digitalFlattenFolders params' = true →
         Spaces.digitalTargetFolder params' = Spaces.digitalTargetFolder params →
         Spaces.normalizeKeyPath P file params'
         = Spaces.normalizeKeyPath P file params).
Proof.
  intros P params this. split; [|split].
  - intros other rest Hlen Hflat. unfold Spaces.normalizeKeyPath.
    rewrite Hflat, substring_length_app, <- Hlen, substring_length_app. done.
  - intros other rest Hlen Hflat. unfold Upload.normalizeKeyPath.
    rewrite Hflat, substring_length_app, <- Hlen, substring_length_app. done.
  - intros params' file Hf Hf' Ht. unfold Spaces.normalizeKeyPath.
    by rewrite Hf, Hf', Ht.
Qed.

(** An instance of X1: [/other/dir/img/b.png] is not under [/build/out],
    which has the same length as [/other/dir], and gets the key of
    [/build/out/img/b.png]. *)
Lemma key_ignores_source_folder_text_witness :
  Spaces.normalizeKeyPath posix "/other/dir/img/b.png"
    (minimalParams (Some "release") false)
  = Spaces.normalizeKeyPath posix "/build/out/img/b.png"
      (minimalParams (Some "release") false).
Proof.
  exact (proj1 (key_ignores_source_folder_text posix
                  (minimalParams (Some "release") false)
                  (typedUploader (Some "release") false None))
           "/other/dir" "/img/b.png" eq_refl eq_refl).
Defined.

(** X2: on a POSIX host, when the target folder and the relative path are
    made of ordinary pieces and hold no backslash, the key without
    [flatten] is the target folder, a ['/'] and the relative path; with
    [flatten] and an ordinary base name it is the target folder, a ['/']
    and the base name. *)
Theorem key_under_clean_target :
  ∀ (params : Spaces.Parameters) (rest target : string)
    (contentType : option string),
    let file := Spaces.digitalSourceFolder params +:+ rest in
    let relative := Spec.dropLeading (sep posix) rest in
    Spaces.digitalTargetFolder params = Some target →
    Forall ordinary (Posix.split target) →
    occurs JS.backslash target = false →
    occurs JS.backslash file = false →
    (Spaces.digitalFlattenFolders params = false →
     Forall ordinary (Posix.split relative) →
     Spaces.normalizeKeyPath posix file params
       = target +:+ String "/"%char relative
     ∧ Upload.normalizeKeyPath posix (typedOf params contentType) file
       = target +:+ String "/"%char relative)
    ∧ (Spaces.digitalFlattenFolders params = true →
       ordinary (basename posix file) →
       Spaces.normalizeKeyPath posix file params
         = target +:+ String "/"%char (basename posix file)
       ∧ Upload.normalizeKeyPath posix (typedOf params contentType) file
         = target +:+ String "/"%char (basename posix file)).
Proof.
  intros params rest target contentType file relative Ht Hclean Hbt Hbf.
  pose proof (ordinary_nonempty target Hclean) as Hne.
  assert (occurs JS.backslash relative = false) as Hbr.
  { apply occurs_dropLeading. by eapply occurs_suffix. }
  pose proof (proj2 (basename_piece JS.backslash file) Hbf) as Hbb.
  pose proof (proj1 (basename_piece JS.backslash file)) as Hsb.
  rewrite !(normalizeKeyPath_same posix file params) by done.
  subst file. rewrite !Spaces_key, Ht.
  fold relative.
  set (file := Spaces.digitalSourceFolder params +:+ rest) in *.
  assert (∀ name, Spec.under posix (Some target) name = Posix.join target name)
    as Hunder by (intros name; by destruct target).
  rewrite !Hunder.
  split.
  - intros -> Hrel. rewrite join_clean by done.
    rewrite replaceAll_absent; [done|].
    rewrite occurs_app, occurs_cons, Hbt, Hbr. done.
  - intros -> Hbase.
    change (basename posix file) with (Posix.basename file) in *.
    rewrite join_clean; [|done|].
    + rewrite replaceAll_absent; [done|].
      rewrite occurs_app, occurs_cons, Hbt, Hbb. done.
    + rewrite split_slash_free by done. by constructor.
Qed.

(** An instance of X2: [/build/out/img/b.png] under [site/assets]. *)
Lemma key_under_clean_target_witness :
  Spaces.normalizeKeyPath posix "/build/out/img/b.png"
    (minimalParams (Some "site/assets") false)
  = "site/assets/img/b.png".
Proof.
  apply (proj1 (key_under_clean_target
                  (minimalParams (Some "site/assets") false) "/img/b.png"
                  "site/assets" None eq_refl
                  ltac:(vm_compute; repeat constructor; discriminate)
                  eq_refl eq_refl)).
  - reflexivity.
  - vm_compute. repeat constructor; discriminate.
Defined.

(** X3: on a POSIX host, with [flatten] set and no target folder, the key
    of a file path free of backslashes is its base name, and it holds no
    ['/']: nothing of the directories of the file is left in it. *)
Theorem flatten_key_is_base_name :
  ∀ (params : Spaces.Parameters) (file : string)
    (contentType : option string),
    Spaces.digitalFlattenFolders params = true →
    JS.truthy (Spaces.digitalTargetFolder params) = false →
    occurs JS.backslash file = false →
    Spaces.normalizeKeyPath posix file params = basename posix file
    ∧ Upload.normalizeKeyPath posix (typedOf params contentType) file
      = basename posix file
    ∧ occurs "/"%char (Spaces.normalizeKeyPath posix file params) = false.
Proof.
  intros params file contentType Hflat Ht Hb.
  rewrite (normalizeKeyPath_same posix file params) by done.
  assert (Spaces.normalizeKeyPath posix file params = basename posix file)
    as Hkey.
  { unfold Spaces.normalizeKeyPath. rewrite Hflat, Ht.
    apply replaceAll_absent, (proj2 (basename_piece JS.backslash file) Hb). }
  rewrite Hkey. split; [done|]. split; [done|].
  exact (proj1 (basename_piece "/"%char file)).
Qed.

(** An instance of X3: [/build/out/x/y/a.txt] flattens to [a.txt]. *)
Lemma flatten_key_is_base_name_witness :
  Spaces.normalizeKeyPath posix "/build/out/x/y/a.txt"
    (minimalParams None true) = "a.txt".
Proof.
  exact (proj1 (flatten_key_is_base_name (minimalParams None true)
                  "/build/out/x/y/a.txt" None eq_refl eq_refl eq_refl)).
Defined.

Lemma replaceAll_empty x y s :
  JS.replaceAll x y s = EmptyString ↔ s = EmptyString.
Proof. by destruct s. Qed.

Lemma dropLeading_empty c rest :
  Spec.dropLeading c rest = EmptyString
  ↔ rest = EmptyString ∨ rest = String c EmptyString.
Proof.
  destruct rest as [|a r]; simpl.
  - split; [by left|done].
  - destruct (Ascii.eqb_spec a c) as [->|Hne]; split.
    + intros ->. by right.
    + by intros [?|[= ->]].
    + done.
    + intros [?|[= ? ?]]; done.
Qed.

Lemma substring_empty n s :
  JS.substring n s = EmptyString ↔ String.length s ≤ n.
Proof.
  revert s. induction n as [|n IH]; intros [|a s]; simpl;
    try (split; [done|lia]); try (split; [lia|done]).
  rewrite IH. lia.
Qed.

(** X4: without [flatten] and without a target folder, the key of a file
    path is the empty string exactly when nothing, or one separator only,
    is left of the path after as many characters as the source folder
    has: the path is not longer than the source folder, or what follows
    that many characters is the separator alone.  For a path that begins
    with the source folder, this is the folder itself or the folder
    followed by one separator.  The code does not reject such a path. *)
Theorem empty_key_iff_nothing_left :
  ∀ (P : PathModule) (params : Spaces.Parameters)
    (contentType : option string),
    let n := String.length (Spaces.digitalSourceFolder params) in
    Spaces.digitalFlattenFolders params = false →
    JS.truthy (Spaces.digitalTargetFolder params) = false →
    (∀ file : string,
       (Spaces.normalizeKeyPath P file params = EmptyString
        ↔ String.length file ≤ n
          ∨ JS.substring n file = String (sep P) EmptyString)
       ∧ (Upload.normalizeKeyPath P (typedOf params contentType) file
            = EmptyString
          ↔ String.length file ≤ n
            ∨ JS.substring n file = String (sep P) EmptyString))
    ∧ (∀ rest : string,
         Spaces.normalizeKeyPath P
           (Spaces.digitalSourceFolder params +:+ rest) params = EmptyString
         ↔ rest = EmptyString ∨ rest = String (sep P) EmptyString).
Proof.
  intros P params contentType n Hflat Ht.
  assert (∀ file : string,
     Spaces.normalizeKeyPath P file params = EmptyString
     ↔ String.length file ≤ n
       ∨ JS.substring n file = String (sep P) EmptyString) as Hgen.
  { intros file. unfold Spaces.normalizeKeyPath.
    rewrite Hflat, Ht, dropLeading_code, replaceAll_empty, dropLeading_empty.
    fold n. by rewrite substring_empty. }
  split.
  - intros file. rewrite (normalizeKeyPath_same P file params) by done.
    split; apply Hgen.
  - intros rest. rewrite Hgen. subst n.
    rewrite substring_length_app, <- substring_empty, substring_length_app.
    done.
Qed.

(** An instance of X4: [/b], which is shorter than the source folder
    [/build/out] and not under it, gets the empty key. *)
Lemma empty_key_iff_nothing_left_witness :
  Spaces.normalizeKeyPath posix "/b" (minimalParams None false) = EmptyString.
Proof.
  apply (proj1 (proj1 (empty_key_iff_nothing_left posix
                         (minimalParams None false) None eq_refl eq_refl)
                  "/b")).
  left. vm_compute. lia.
Defined.

(** ** Content types: outside the table *)

Lemma knownMimeTypes_keys :
  map_Forall (λ ext _, Spec.toLowerCase ext = ext ∧ beginsWith "."%char ext = true)
    Upload.knownMimeTypes.
Proof. by apply (bool_decide_unpack _); vm_compute. Qed.

Lemma lastDot_absent s : occurs Posix.dot s = false → Posix.lastDot s = None.
Proof.
  induction s as [|a s IH]; [done|]. simpl.
  intros [Ha Hs]%orb_false_iff. by rewrite (IH Hs), Ha.
Qed.

(** X5: whatever the override and the file, the content type [init]
    settles on is never the empty string. *)
Theorem contentType_never_empty :
  ∀ (P : PathModule) (this : Upload.Object) (file : string),
    Upload.contentTypeOf P this file ≠ EmptyString.
Proof.
  intros P this file.
  destruct (JS.truthy (Upload.digitalContentType (Upload.params this)))
    eqn:Hov.
  - unfold Upload.contentTypeOf. rewrite Hov.
    by destruct (Upload.digitalContentType (Upload.params this)) as [[|a ct]|].
  - rewrite contentTypeOf_lookup by done.
    destruct (Upload.knownMimeTypes !! extname P file) as [mime|] eqn:Hm;
      [|done].
    exact (knownMimeTypes_values _ _ Hm).
Qed.

(** X6: without an override, a file whose extension is not in lower case,
    or does not begin with a dot, gets ["application/octet-stream"],
    because every key of the table is a dot followed by lower-case text.
    On a POSIX host this covers every file whose base name holds no
    dot. *)
Theorem extension_outside_table_falls_back :
  (∀ (P : PathModule) (this : Upload.Object) (file : string),
     JS.truthy (Upload.digitalContentType (Upload.params this)) = false →
     Spec.toLowerCase (extname P file) ≠ extname P file
     ∨ beginsWith "."%char (extname P file) = false →
     Upload.contentTypeOf P this file = "application/octet-stream")
  ∧ (∀ (this : Upload.Object) (file : string),
       JS.truthy (Upload.digitalContentType (Upload.params this)) = false →
       occurs "."%char (basename posix file) = false →
       Upload.contentTypeOf posix this file = "application/octet-stream").
Proof.
  assert (∀ (P : PathModule) (this : Upload.Object) (file : string),
     JS.truthy (Upload.digitalContentType (Upload.params this)) = false →
     Spec.toLowerCase (extname P file) ≠ extname P file
     ∨ beginsWith "."%char (extname P file) = false →
     Upload.contentTypeOf P this file = "application/octet-stream") as Hgen.
  { intros P this file Hov Hext. rewrite contentTypeOf_lookup by done.
    destruct (Upload.knownMimeTypes !! extname P file) as [mime|] eqn:Hm;
      [|done].
    destruct (knownMimeTypes_keys _ _ Hm) as [Hlow Hdot].
    destruct Hext as [Hext|Hext]; congruence. }
  split; [exact Hgen|].
  intros this file Hov Hnodot. apply Hgen; [done|]. right.
  change (extname posix file) with (Posix.extname file).
  change (basename posix file) with (Posix.basename file) in Hnodot.
  unfold Posix.extname. rewrite (lastDot_absent _ Hnodot).
  by destruct (decide (Posix.basename file = "..")).
Qed.

(** An instance of X6: [REPORT.PDF], whose extension is in upper case. *)
Lemma extension_outside_table_falls_back_witness :
  Upload.contentTypeOf posix (typedUploader None false None)
    "/build/out/REPORT.PDF"
  = "application/octet-stream".
Proof.
  apply (proj1 extension_outside_table_falls_back posix
           (typedUploader None false None) "/build/out/REPORT.PDF").
  - reflexivity.
  - left. vm_compute. discriminate.
Defined.

(** ** The upload loop against any client *)

Section AnyClient.

Variable s3 : S3.
Variable prettyBytes : N → string.
Variable percent : N → N → string.
Variables startArgs doneArgs : string → list string.
Variable req : string → PutObjectRequest.
Variable body : string → M unit.

Let events (k : nat) (file : string) : list Event :=
  attemptEvents prettyBytes percent
    (ConsoleLog "UploadingFile" (startArgs file))
    (ConsoleLog "FileUploadCompleted" (doneArgs file))
    file (req file) (s3 k (req file)).

Hypothesis body_run : ∀ file w,
  body file w
  = (outcome (s3 (uploadCalls w) (req file)),
     {| trace := trace w ++ events (uploadCalls w) file;
        uploadCalls := S (uploadCalls w) |}).

(** Whatever the client answers, the loop visits the first [n] files in
    order and stops: after the last file, or at the first rejection. *)
Lemma loop_run (files : list string) (w : World) :
  ∃ (n : nat) (tr : list Event) (res : Completion unit),
    forOf files body w
    = (res, {| trace := trace w ++ tr; uploadCalls := uploadCalls w + n |})
    ∧ n ≤ length files
    ∧ uploadsOf tr = map req (take n files)
    ∧ (∀ key, key ≠ "UploadingFile" → key ≠ "FileUploadProgress" →
              key ≠ "FileUploadCompleted" → logged key tr = [])
    ∧ match res with
      | Normal _ =>
          n = length files ∧ failuresOf tr = []
          ∧ length (completionsOf tr) = n
      | Throw err =>
          failuresOf tr = [ConsoleError "FileUploadFailed" [] err]
          ∧ S (length (completionsOf tr)) = n
          ∧ last tr = Some (ConsoleError "FileUploadFailed" [] err)
          ∧ ∃ f, files !! (n - 1) = Some f
                 ∧ promise (s3 (uploadCalls w + (n - 1)) (req f)) = inr err
      end.
Proof.
  revert w. induction files as [|file files IH]; intros w.
  - exists 0, [], (Normal tt). split; [|done].
    simpl. unfold ret. rewrite app_nil_r, Nat.add_0_r. by destruct w.
  - simpl forOf. rewrite run_bind, body_run. unfold outcome.
    destruct (promise (s3 (uploadCalls w) (req file))) as [data|err] eqn:Hp.
    + destruct (IH {| trace := trace w ++ events (uploadCalls w) file;
                      uploadCalls := S (uploadCalls w) |})
        as (n & tr & res & Hrun & Hn & Hup & Hlog & Hres).
      exists (S n), (events (uploadCalls w) file ++ tr), res.
      split; [|split; [|split; [|split]]].
      * rewrite Hrun. simpl. rewrite <- app_assoc. do 2 f_equal. lia.
      * simpl. lia.
      * unfold uploadsOf in *. rewrite omap_app, Hup.
        fold (uploadsOf (events (uploadCalls w) file)). unfold events.
        by rewrite attempt_uploads.
      * intros key H1 H2 H3. unfold logged in *. rewrite filter_app.
        fold (logged key (events (uploadCalls w) file)). unfold events.
        rewrite attempt_not_logged by done. by apply Hlog.
      * assert (failuresOf (events (uploadCalls w) file ++ tr) = failuresOf tr)
          as Hf.
        { unfold failuresOf. rewrite filter_app.
          fold (failuresOf (events (uploadCalls w) file)). unfold events.
          by rewrite attempt_failures, Hp. }
        assert (length (completionsOf (events (uploadCalls w) file ++ tr))
                = S (length (completionsOf tr))) as Hc.
        { unfold completionsOf, logged. rewrite filter_app, length_app.
          fold (logged "FileUploadCompleted" (events (uploadCalls w) file)).
          fold (completionsOf (events (uploadCalls w) file)). unfold events.
          by rewrite attempt_completions, Hp. }
        rewrite Hf, Hc. destruct res as [[]|err].
        -- destruct Hres as (-> & ? & ?). simpl. auto.
        -- destruct Hres as (? & Hcn & Hlast & f & Hf' & Hpf).
           split; [done|]. split; [lia|]. split.
           { rewrite last_app, Hlast. done. }
           exists f. destruct n as [|m]; [discriminate|].
           simpl in Hf', Hpf. rewrite Nat.sub_0_r in Hf', Hpf.
           replace (S (S m) - 1) with (S m) by lia.
           split; [exact Hf'|].
           by replace (uploadCalls w + S m) with (S (uploadCalls w + m)) by lia.
    + exists 1, (events (uploadCalls w) file), (Throw err).
      split; [do 2 f_equal; lia|]. split; [simpl; lia|]. split; [|split].
      * unfold events. by rewrite attempt_uploads.
      * intros key H1 H2 H3. unfold events. by apply attempt_not_logged.
      * unfold events. rewrite attempt_failures, attempt_completions by done.
        rewrite attempt_last, Hp. repeat split; try done.
        exists file. simpl. by rewrite Nat.add_0_r.
Qed.

End AnyClient.

(** ** Runs of the two uploaders against any client *)

Lemma Spaces_upload_run path findFiles s3 prettyBytes percent
    (this : Spaces.Parameters) :
  ∃ n tr res,
    Spaces.upload path findFiles s3 prettyBytes percent this start
    = (res,
       {| trace := ConsoleLog "UploadingFiles"
                     [Spaces.digitalSourceFolder this;
                      if JS.truthy (Spaces.digitalTargetFolder this)
                      then JS.the (Spaces.digitalTargetFolder this)
                      else "root";
                      Spaces.digitalBucket this] :: tr;
          uploadCalls := n |})
    ∧ loopOutcome s3 (λ f, Spaces.putObjectRequest path this f f)
        (findFiles this) n tr res.
Proof.
  destruct (loop_run s3 prettyBytes percent
              (λ f, [f; Spaces.normalizeKeyPath path f this])
              (λ f, [f; Spaces.normalizeKeyPath path f this])
              (λ f, Spaces.putObjectRequest path this f f)
              (Spaces.uploadFile path s3 prettyBytes percent this)
              (Spaces_uploadFile_run path s3 prettyBytes percent this)
              (findFiles this)
              {| trace := [ConsoleLog "UploadingFiles"
                             [Spaces.digitalSourceFolder this;
                              if JS.truthy (Spaces.digitalTargetFolder this)
                              then JS.the (Spaces.digitalTargetFolder this)
                              else "root";
                              Spaces.digitalBucket this]];
                 uploadCalls := 0 |})
    as (n & tr & res & Hrun & Hfacts).
  exists n, tr, res. split; [|exact Hfacts].
  unfold Spaces.upload, console_log. rewrite run_bind. unfold emit at 1.
  simpl trace. simpl uploadCalls. rewrite app_nil_l, Hrun. reflexivity.
Qed.

Lemma Upload_init_run path findFiles s3 prettyBytes percent
    (this : Upload.Object) :
  findFiles (Upload.params this) ≠ [] →
  ∃ n tr res,
    Upload.init path findFiles s3 prettyBytes percent this start
    = (res,
       {| trace := ConsoleLog "UploadingFiles"
                     [Upload.digitalSourceFolder (Upload.params this);
                      if JS.truthy (Upload.digitalTargetFolder
                                      (Upload.params this))
                      then JS.the (Upload.digitalTargetFolder
                                     (Upload.params this))
                      else "root";
                      Upload.digitalBucket (Upload.params this)]
                   :: tr ++ match res with
                            | Normal _ => [ConsoleLog "TaskCompleted" []]
                            | Throw _ => []
                            end;
          uploadCalls := n |})
    ∧ loopOutcome s3 (λ f, Upload.putObjectRequest path this f f)
        (findFiles (Upload.params this)) n tr res.
Proof.
  intros Hne.
  destruct (loop_run s3 prettyBytes percent
              (λ f, [f; Upload.normalizeKeyPath path this f;
                     Upload.contentTypeOf path this f])
              (λ f, [f; Upload.normalizeKeyPath path this f])
              (λ f, Upload.putObjectRequest path this f f)
              (Upload.uploadFile path s3 prettyBytes percent this)
              (Upload_uploadFile_run path s3 prettyBytes percent this)
              (findFiles (Upload.params this))
              {| trace := [ConsoleLog "UploadingFiles"
                             [Upload.digitalSourceFolder (Upload.params this);
                              if JS.truthy (Upload.digitalTargetFolder
                                              (Upload.params this))
                              then JS.the (Upload.digitalTargetFolder
                                             (Upload.params this))
                              else "root";
                              Upload.digitalBucket (Upload.params this)]];
                 uploadCalls := 0 |})
    as (n & tr & res & Hrun & Hfacts).
  exists n, tr, res. split; [|exact Hfacts].
  unfold Upload.init, console_log. rewrite run_bind. unfold emit at 1.
  simpl trace. simpl uploadCalls. rewrite decide_False by done.
  rewrite run_bind, app_nil_l, Hrun. simpl.
  destruct res as [[]|err]; [|by rewrite app_nil_r].
  reflexivity.
Qed.

(** The opening line, and the closing line when there is one, are not
    requests, failures or per-file completions. *)
Lemma framed_run (args : list string) (tr tail : list Event) :
  tail = [] ∨ tail = [ConsoleLog "TaskCompleted" []] →
  let tr' := ConsoleLog "UploadingFiles" args :: tr ++ tail in
  uploadsOf tr' = uploadsOf tr
  ∧ failuresOf tr' = failuresOf tr
  ∧ completionsOf tr' = completionsOf tr.
Proof.
  intros Htail tr'. subst tr'.
  unfold uploadsOf, failuresOf, completionsOf, logged.
  rewrite !filter_cons_False by done. simpl omap.
  rewrite omap_app, !filter_app.
  destruct Htail as [->| ->]; simpl; by rewrite !app_nil_r.
Qed.

Lemma empty_init_run path findFiles s3 prettyBytes percent
    (this : Upload.Object) :
  findFiles (Upload.params this) = [] →
  Upload.init path findFiles s3 prettyBytes percent this start
  = (Normal tt,
     {| trace := [ConsoleLog "UploadingFiles"
                    [Upload.digitalSourceFolder (Upload.params this);
                     if JS.truthy (Upload.digitalTargetFolder
                                     (Upload.params this))
                     then JS.the (Upload.digitalTargetFolder
                                    (Upload.params this))
                     else "root";
                     Upload.digitalBucket (Upload.params this)];
                  ConsoleLog "FileNotFound"
                    [Upload.digitalSourceFolder (Upload.params this)]];
        uploadCalls := 0 |}).
Proof. intros Hfiles. unfold Upload.init. by rewrite Hfiles. Qed.

(** X7: whatever the client answers, either uploader hands it the
    requests of the first [n] discovered files, in discovery order and
    once each, and nothing else.  It ends normally only after the last
    file, with one completion event per file and no failure event; it
    throws only the error of the [n]-th upload, after one failure event
    and [n - 1] completion events. *)
Theorem uploads_follow_discovery_order :
  (∀ (path : PathModule) (findFiles : Upload.Parameters → list string)
      (s3 : S3) (prettyBytes : N → string) (percent : N → N → string)
      (this : Upload.Object),
     let files := findFiles (Upload.params this) in
     let req := λ f, Upload.putObjectRequest path this f f in
     ∃ n res w,
       Upload.init path findFiles s3 prettyBytes percent this start = (res, w)
       ∧ n ≤ length files
       ∧ uploadsOf (trace w) = map req (take n files)
       ∧ match res with
         | Normal _ =>
             n = length files ∧ failuresOf (trace w) = []
             ∧ length (completionsOf (trace w)) = n
         | Throw err =>
             failuresOf (trace w) = [ConsoleError "FileUploadFailed" [] err]
             ∧ S (length (completionsOf (trace w))) = n
             ∧ ∃ f, files !! (n - 1) = Some f
                    ∧ promise (s3 (n - 1) (req f)) = inr err
         end)
  ∧ (∀ (path : PathModule) (findFiles : Spaces.Parameters → list string)
        (s3 : S3) (prettyBytes : N → string) (percent : N → N → string)
        (this : Spaces.Parameters),
       let files := findFiles this in
       let req := λ f, Spaces.putObjectRequest path this f f in
       ∃ n res w,
         Spaces.upload path findFiles s3 prettyBytes percent this start
         = (res, w)
         ∧ n ≤ length files
         ∧ uploadsOf (trace w) = map req (take n files)
         ∧ match res with
           | Normal _ =>
               n = length files ∧ failuresOf (trace w) = []
               ∧ length (completionsOf (trace w)) = n
           | Throw err =>
               failuresOf (trace w) = [ConsoleError "FileUploadFailed" [] err]
               ∧ S (length (completionsOf (trace w))) = n
               ∧ ∃ f, files !! (n - 1) = Some f
                      ∧ promise (s3 (n - 1) (req f)) = inr err
           end).
Proof.
  split.
  - intros path findFiles s3 prettyBytes percent this files req.
    destruct (decide (files = [])) as [Hnil|Hne].
    + exists 0, (Normal tt). eexists. split; [by apply empty_init_run|].
      subst files. rewrite Hnil. done.
    + destruct (Upload_init_run path findFiles s3 prettyBytes percent this Hne)
        as (n & tr & res & Hrun & Hn & Hup & _ & Hres).
      exists n, res. eexists. split; [exact Hrun|]. simpl trace.
      edestruct (framed_run) as (H1 & H2 & H3);
        [|rewrite H1, H2, H3].
      { destruct res; [by right|by left]. }
      split; [done|]. split; [done|].
      destruct res as [[]|err]; [done|].
      destruct Hres as (? & ? & _ & ?). done.
  - intros path findFiles s3 prettyBytes percent this files req.
    destruct (Spaces_upload_run path findFiles s3 prettyBytes percent this)
      as (n & tr & res & Hrun & Hn & Hup & _ & Hres).
    exists n, res. eexists. split; [exact Hrun|]. simpl trace.
    destruct (framed_run
                [Spaces.digitalSourceFolder this;
                 if JS.truthy (Spaces.digitalTargetFolder this)
                 then JS.the (Spaces.digitalTargetFolder this) else "root";
                 Spaces.digitalBucket this] tr [] (or_introl eq_refl))
      as (H1 & H2 & H3).
    rewrite app_nil_r in H1, H2, H3. rewrite H1, H2, H3.
    split; [done|]. split; [done|].
    destruct res as [[]|err]; [done|].
    destruct Hres as (? & ? & _ & ?). done.
Qed.

(** A run whose uploads all resolve cannot have stopped on a rejection. *)
Lemma all_resolve_normal (s3 : S3) (req : string → PutObjectRequest)
    (files : list string) (n : nat) (tr : list Event)
    (res : Completion unit) :
  (∀ i f, files !! i = Some f → outcome (s3 i (req f)) = Normal tt) →
  loopOutcome s3 req files n tr res →
  res = Normal tt ∧ n = length files ∧ uploadsOf tr = map req files
  ∧ failuresOf tr = [] ∧ length (completionsOf tr) = length files
  ∧ logged "FileNotFound" tr = [] ∧ logged "TaskCompleted" tr = [].
Proof.
  intros Hall (Hn & Hup & Hlog & Hres). destruct res as [[]|err].
  - destruct Hres as (-> & Hf & Hc). rewrite firstn_all in Hup.
    repeat split; try done; by apply Hlog.
  - destruct Hres as (_ & _ & _ & f & Hf & Hp).
    specialize (Hall _ _ Hf). unfold outcome in Hall. by rewrite Hp in Hall.
Qed.

(** X8: when every upload resolves, either uploader ends normally, having
    handed the client one request per discovered file, in discovery order,
    and logged one completion event per file and no failure event.  The
    typed uploader, given at least one file, then logs [TaskCompleted] as
    its last line, once, and never [FileNotFound]. *)
Theorem uploads_all_succeed :
  (∀ (path : PathModule) (findFiles : Upload.Parameters → list string)
      (s3 : S3) (prettyBytes : N → string) (percent : N → N → string)
      (this : Upload.Object),
     let files := findFiles (Upload.params this) in
     let req := λ f, Upload.putObjectRequest path this f f in
     files ≠ [] →
     (∀ i f, files !! i = Some f → outcome (s3 i (req f)) = Normal tt) →
     ∃ w, Upload.init path findFiles s3 prettyBytes percent this start
          = (Normal tt, w)
        ∧ uploadsOf (trace w) = map req files
        ∧ length (completionsOf (trace w)) = length files
        ∧ failuresOf (trace w) = []
        ∧ last (trace w) = Some (ConsoleLog "TaskCompleted" [])
        ∧ logged "TaskCompleted" (trace w) = [ConsoleLog "TaskCompleted" []]
        ∧ logged "FileNotFound" (trace w) = [])
  ∧ (∀ (path : PathModule) (findFiles : Spaces.Parameters → list string)
        (s3 : S3) (prettyBytes : N → string) (percent : N → N → string)
        (this : Spaces.Parameters),
       let files := findFiles this in
       let req := λ f, Spaces.putObjectRequest path this f f in
       (∀ i f, files !! i = Some f → outcome (s3 i (req f)) = Normal tt) →
       ∃ w, Spaces.upload path findFiles s3 prettyBytes percent this start
            = (Normal tt, w)
          ∧ uploadsOf (trace w) = map req files
          ∧ length (completionsOf (trace w)) = length files
          ∧ failuresOf (trace w) = []).
Proof.
  split.
  - intros path findFiles s3 prettyBytes percent this files req Hne Hall.
    destruct (Upload_init_run path findFiles s3 prettyBytes percent this Hne)
      as (n & tr & res & Hrun & Hfacts).
    destruct (all_resolve_normal s3 req files n tr res Hall Hfacts)
      as (-> & -> & Hup & Hf & Hc & Hfnf & Htc).
    eexists. split; [exact Hrun|]. simpl trace.
    edestruct (framed_run) as (H1 & H2 & H3); [by right|].
    rewrite H1, H2, H3. repeat split; try done.
    + by rewrite app_comm_cons, last_snoc.
    + unfold logged in *. rewrite filter_cons_False by done.
      by rewrite filter_app, Htc.
    + unfold logged in *. rewrite filter_cons_False by done.
      by rewrite filter_app, Hfnf.
  - intros path findFiles s3 prettyBytes percent this files req Hall.
    destruct (Spaces_upload_run path findFiles s3 prettyBytes percent this)
      as (n & tr & res & Hrun & Hfacts).
    destruct (all_resolve_normal s3 req files n tr res Hall Hfacts)
      as (-> & -> & Hup & Hf & Hc & _).
    eexists. split; [exact Hrun|]. simpl trace.
    destruct (framed_run
                [Spaces.digitalSourceFolder this;
                 if JS.truthy (Spaces.digitalTargetFolder this)
                 then JS.the (Spaces.digitalTargetFolder this) else "root";
                 Spaces.digitalBucket this] tr [] (or_introl eq_refl))
      as (H1 & H2 & H3).
    rewrite app_nil_r in H1, H2, H3. by rewrite H1, H2, H3.
Qed.

(** An instance of X8: three files and a client that resolves them all. *)
Lemma uploads_all_succeed_witness :
  ∃ w, Upload.init posix (λ _, threeFiles) resolveAll plainBytes plainPercent
         (typedUploader (Some "release") false None) start
       = (Normal tt, w)
     ∧ uploadsOf (trace w)
       = map (λ f, Upload.putObjectRequest posix
                     (typedUploader (Some "release") false None) f f)
           threeFiles
     ∧ length (completionsOf (trace w)) = 3
     ∧ failuresOf (trace w) = []
     ∧ last (trace w) = Some (ConsoleLog "TaskCompleted" [])
     ∧ logged "TaskCompleted" (trace w) = [ConsoleLog "TaskCompleted" []]
     ∧ logged "FileNotFound" (trace w) = [].
Proof.
  apply (proj1 uploads_all_succeed posix (λ _, threeFiles) resolveAll
           plainBytes plainPercent (typedUploader (Some "release") false None)).
  - discriminate.
  - intros i f Hi. reflexivity.
Defined.

(** X9: every request either uploader hands to the client, in any run,
    carries the configured bucket and ACL, the stream of one of the
    discovered files as its body and that file's normalised key; the
    typed uploader adds the content type resolved for that file, the
    minimal uploader sends none. *)
Theorem requests_carry_configuration :
  (∀ (path : PathModule) (findFiles : Upload.Parameters → list string)
      (s3 : S3) (prettyBytes : N → string) (percent : N → N → string)
      (this : Upload.Object),
     Forall (λ r,
               Bucket r = Upload.digitalBucket (Upload.params this)
               ∧ ACL r = Upload.digitalAcl (Upload.params this)
               ∧ Body r ∈ findFiles (Upload.params this)
               ∧ Key r = Upload.normalizeKeyPath path this (Body r)
               ∧ ContentType r
                 = Some (Upload.contentTypeOf path this (Body r)))
       (uploadsOf
          (trace (snd (Upload.init path findFiles s3 prettyBytes percent
                         this start)))))
  ∧ (∀ (path : PathModule) (findFiles : Spaces.Parameters → list string)
        (s3 : S3) (prettyBytes : N → string) (percent : N → N → string)
        (this : Spaces.Parameters),
       Forall (λ r,
                 Bucket r = Spaces.digitalBucket this
                 ∧ ACL r = Spaces.digitalAcl this
                 ∧ Body r ∈ findFiles this
                 ∧ Key r = Spaces.normalizeKeyPath path (Body r) this
                 ∧ ContentType r = None)
         (uploadsOf
            (trace (snd (Spaces.upload path findFiles s3 prettyBytes percent
                           this start))))).
Proof.
  split.
  - intros path findFiles s3 prettyBytes percent this.
    destruct (decide (findFiles (Upload.params this) = [])) as [Hnil|Hne].
    + rewrite empty_init_run by done. constructor.
    + destruct (Upload_init_run path findFiles s3 prettyBytes percent this Hne)
        as (n & tr & res & Hrun & Hn & Hup & _).
      rewrite Hrun. simpl snd. simpl trace.
      edestruct (framed_run) as (H1 & _); [|rewrite H1].
      { destruct res; [by right|by left]. }
      rewrite Hup. apply Forall_map, Forall_forall. intros f Hf.
      apply elem_of_take in Hf as (i & Hi & _).
      apply list_elem_of_lookup_2 in Hi. done.
  - intros path findFiles s3 prettyBytes percent this.
    destruct (Spaces_upload_run path findFiles s3 prettyBytes percent this)
      as (n & tr & res & Hrun & Hn & Hup & _).
    rewrite Hrun. simpl snd. simpl trace.
    destruct (framed_run
                [Spaces.digitalSourceFolder this;
                 if JS.truthy (Spaces.digitalTargetFolder this)
                 then JS.the (Spaces.digitalTargetFolder this) else "root";
                 Spaces.digitalBucket this] tr [] (or_introl eq_refl))
      as (H1 & _).
    rewrite app_nil_r in H1. rewrite H1, Hup.
    apply Forall_map, Forall_forall. intros f Hf.
    apply elem_of_take in Hf as (i & Hi & _).
    apply list_elem_of_lookup_2 in Hi. done.
Qed.

(** X10: the typed uploader logs [FileNotFound] exactly when discovery
    yields no file, and [TaskCompleted] exactly when there was at least
    one file and no upload was rejected; so a run over an empty list ends
    without [TaskCompleted].  The minimal uploader logs neither line in
    any run. *)
Theorem overall_lines :
  (∀ (path : PathModule) (findFiles : Upload.Parameters → list string)
      (s3 : S3) (prettyBytes : N → string) (percent : N → N → string)
      (this : Upload.Object),
     ∃ res w,
       Upload.init path findFiles s3 prettyBytes percent this start = (res, w)
       ∧ (logged "FileNotFound" (trace w) ≠ []
          ↔ findFiles (Upload.params this) = [])
       ∧ (logged "TaskCompleted" (trace w) ≠ []
          ↔ findFiles (Upload.params this) ≠ [] ∧ res = Normal tt))
  ∧ (∀ (path : PathModule) (findFiles : Spaces.Parameters → list string)
        (s3 : S3) (prettyBytes : N → string) (percent : N → N → string)
        (this : Spaces.Parameters),
       ∃ res w,
         Spaces.upload path findFiles s3 prettyBytes percent this start
         = (res, w)
         ∧ logged "FileNotFound" (trace w) = []
         ∧ logged "TaskCompleted" (trace w) = []).
Proof.
  split.
  - intros path findFiles s3 prettyBytes percent this.
    destruct (decide (findFiles (Upload.params this) = [])) as [Hnil|Hne].
    + do 2 eexists. split; [by apply empty_init_run|]. simpl trace.
      split; split; try done. by intros [? _].
    + destruct (Upload_init_run path findFiles s3 prettyBytes percent this Hne)
        as (n & tr & res & Hrun & _ & _ & Hlog & _).
      exists res. eexists. split; [exact Hrun|]. simpl trace.
      unfold logged in *. rewrite !filter_cons_False by done.
      rewrite !filter_app, !Hlog by done. simpl app.
      destruct res as [[]|err]; split; split; try done.
      by intros [_ ?].
  - intros path findFiles s3 prettyBytes percent this.
    destruct (Spaces_upload_run path findFiles s3 prettyBytes percent this)
      as (n & tr & res & Hrun & _ & _ & Hlog & _).
    exists res. eexists. split; [exact Hrun|]. simpl trace.
    unfold logged in *. rewrite !filter_cons_False by done.
    by rewrite !Hlog.
Qed.
